(** * Dynamic resource interception and sandboxed execution (qiankun)

    A shallow embedding of
      - packages/sandbox/src/patchers/dynamicAppend/common.ts
      - packages/shared/src/assets-transpilers/script.ts
    and the properties of the design document checked against it.

    Conventions of the embedding.
      - JavaScript objects with identity (DOM nodes, arrays, style sheets)
        live in a store and are named by identifiers; a reference is an
        identifier, so aliasing is visible.
      - A JavaScript function that may read or write the store or throw is a
        computation in the monad [M] (state plus an error channel).
      - A function object is a record: what calling it does, and the value of
        the [overwrittenSymbol] property it carries.
      - Counters are JavaScript numbers holding integers; they are modelled as
        [Z] (the loss of precision of doubles beyond 2^53 is not modelled). *)

From Stdlib Require Import ZArith Lia Ascii String List.
From stdpp Require Import base option list gmap strings pretty.

Local Open Scope string_scope.
Local Open Scope list_scope.

(* ===================================================================== *)
(** * JavaScript values used by the code *)
(* ===================================================================== *)

(** [String.prototype.toUpperCase].  A string is held as its UTF-8 bytes.
    The ASCII letters are mapped byte by byte.  Outside ASCII, the code points
    whose upper-casing consists of ASCII letters only are mapped as Unicode
    maps them: the dotless i (U+0131) to I, the long s (U+017F) to S, the
    sharp s (U+00DF) to SS and the ligatures U+FB00 to U+FB06 to FF, FI, FL,
    FFI, FFL, ST and ST.  The upper-casing of every other code point contains
    a code point outside ASCII; such code points are left as they are, which
    gives the same answer as the platform whenever the result is compared
    with an ASCII string, the only use the code makes of it. *)
Definition toUpperCaseAscii (c : ascii) : ascii :=
  let n := nat_of_ascii c in
  if (97 <=? n)%nat && (n <=? 122)%nat then ascii_of_nat (n - 32) else c.

Fixpoint toUpperCase (s : string) : string :=
  match s with
  | EmptyString => EmptyString
  | String "195" (String "159" r) => String "S" (String "S" (toUpperCase r))
  | String "196" (String "177" r) => String "I" (toUpperCase r)
  | String "197" (String "191" r) => String "S" (toUpperCase r)
  | String "239" (String "172" (String "128" r)) => String "F" (String "F" (toUpperCase r))
  | String "239" (String "172" (String "129" r)) => String "F" (String "I" (toUpperCase r))
  | String "239" (String "172" (String "130" r)) => String "F" (String "L" (toUpperCase r))
  | String "239" (String "172" (String "131" r)) =>
      String "F" (String "F" (String "I" (toUpperCase r)))
  | String "239" (String "172" (String "132" r)) =>
      String "F" (String "F" (String "L" (toUpperCase r)))
  | String "239" (String "172" (String "133" r)) => String "S" (String "T" (toUpperCase r))
  | String "239" (String "172" (String "134" r)) => String "S" (String "T" (toUpperCase r))
  | String c r => String (toUpperCaseAscii c) (toUpperCase r)
  end.

(** Truthiness of a string ([!s] is its negation) and of a nullable string. *)
Definition truthy (s : string) : bool := negb (s =? "").

Definition truthyOpt (s : option string) : bool :=
  match s with
  | None => false
  | Some s => truthy s
  end.

(** What a [throw] carries. *)
Inductive JsError :=
  | NotFoundError
  | HierarchyRequestError
  | IndexSizeError
  | TypeError
  | OtherError (msg : string).

(** How a call ends: with a value, or with an exception. *)
Inductive Completion (A : Type) :=
  | Normal (a : A)
  | Throw (e : JsError).
Arguments Normal {A} a.
Arguments Throw {A} e.

(* ===================================================================== *)
(** * The store: DOM nodes, arrays, style sheets, side tables *)
(* ===================================================================== *)

(** Identifiers of objects: nodes, arrays and style sheets. *)
Abbreviation NodeId := nat (only parsing).
Abbreviation ArrayId := nat (only parsing).
Abbreviation SheetId := nat (only parsing).

Inductive DynamicDomMutationTarget := head | body.

(** The DOM interface of a node, as far as [instanceof] asks for it. *)
Inductive NodeInterface :=
  | HTMLScriptElement
  | HTMLStyleElement
  | HTMLLinkElement
  | OtherNode.

(** The properties of a node that the code reads or writes.  [tagName] is
    [None] on a node that is not an element (a comment, a text node);
    [styleElementTarget] is the property keyed by [styleElementTargetSymbol];
    [sheet] refers to the node's associated style sheet, if it has one. *)
Record Node := mkNode {
  tagName : option string;
  interface : NodeInterface;
  parentNode : option NodeId;
  childNodes : list NodeId;
  attr_src : option string;
  dataset_src : option string;
  type : string;
  textContent : string;
  sheet : option SheetId;
  styleElementTarget : option DynamicDomMutationTarget
}.

(** [sandbox.makeEvaluateFactory(code, url)] of the external sandbox. *)
Record Sandbox := mkSandbox {
  makeEvaluateFactory : string → string → string
}.

(** [new Blob([part], { type })]. *)
Record Blob := mkBlob {
  blob_part : string;
  blob_type : string
}.

(** A started fetch whose promise has not settled, with what its
    continuation [(code) => { ... }] in [transpileScript] closes over. *)
Record FetchTask := mkFetchTask {
  task_url : string;
  task_script : NodeId;
  task_sandbox : Sandbox;
  task_scriptSrc : string
}.

(** The mutable state of the page.  A [CSSRuleList] is the live list of its
    style sheet, so it is named by the sheet's identifier; a rule is kept as
    its [cssText].  The three side tables are the module's [WeakMap]s. *)
Record World := mkWorld {
  nodes : gmap nat Node;
  arrays : gmap nat (list nat);
  sheets : gmap nat (list string);
  styledComponentCSSRulesMap : gmap nat nat;
  dynamicScriptAttachedCommentMap : gmap nat nat;
  dynamicLinkAttachedInlineStyleMap : gmap nat nat;
  location_href : string;
  consoleWarnings : list JsError;
  objectURLs : list (string * Blob);
  pendingFetches : list FetchTask
}.

Definition blankNode : Node :=
  mkNode None OtherNode None [] None None "" "" None None.

(** Field updates. *)
Definition setNodes (f : gmap nat Node → gmap nat Node) (w : World) : World :=
  mkWorld (f (nodes w)) (arrays w) (sheets w) (styledComponentCSSRulesMap w)
          (dynamicScriptAttachedCommentMap w) (dynamicLinkAttachedInlineStyleMap w)
          (location_href w) (consoleWarnings w) (objectURLs w) (pendingFetches w).

Definition setArrays (f : gmap nat (list nat) → gmap nat (list nat)) (w : World) : World :=
  mkWorld (nodes w) (f (arrays w)) (sheets w) (styledComponentCSSRulesMap w)
          (dynamicScriptAttachedCommentMap w) (dynamicLinkAttachedInlineStyleMap w)
          (location_href w) (consoleWarnings w) (objectURLs w) (pendingFetches w).

Definition setSheets (f : gmap nat (list string) → gmap nat (list string)) (w : World) : World :=
  mkWorld (nodes w) (arrays w) (f (sheets w)) (styledComponentCSSRulesMap w)
          (dynamicScriptAttachedCommentMap w) (dynamicLinkAttachedInlineStyleMap w)
          (location_href w) (consoleWarnings w) (objectURLs w) (pendingFetches w).

Definition setStyledComponentCSSRulesMap (f : gmap nat nat → gmap nat nat) (w : World) : World :=
  mkWorld (nodes w) (arrays w) (sheets w) (f (styledComponentCSSRulesMap w))
          (dynamicScriptAttachedCommentMap w) (dynamicLinkAttachedInlineStyleMap w)
          (location_href w) (consoleWarnings w) (objectURLs w) (pendingFetches w).

Definition setConsoleWarnings (f : list JsError → list JsError) (w : World) : World :=
  mkWorld (nodes w) (arrays w) (sheets w) (styledComponentCSSRulesMap w)
          (dynamicScriptAttachedCommentMap w) (dynamicLinkAttachedInlineStyleMap w)
          (location_href w) (f (consoleWarnings w)) (objectURLs w) (pendingFetches w).

Definition setObjectURLs (f : list (string * Blob) → list (string * Blob)) (w : World) : World :=
  mkWorld (nodes w) (arrays w) (sheets w) (styledComponentCSSRulesMap w)
          (dynamicScriptAttachedCommentMap w) (dynamicLinkAttachedInlineStyleMap w)
          (location_href w) (consoleWarnings w) (f (objectURLs w)) (pendingFetches w).

Definition setPendingFetches (f : list FetchTask → list FetchTask) (w : World) : World :=
  mkWorld (nodes w) (arrays w) (sheets w) (styledComponentCSSRulesMap w)
          (dynamicScriptAttachedCommentMap w) (dynamicLinkAttachedInlineStyleMap w)
          (location_href w) (consoleWarnings w) (objectURLs w) (f (pendingFetches w)).

(** Reading and updating an object through a reference.  A reference always
    names an object: one that was never written reads as the blank one. *)
Definition getNode (w : World) (n : NodeId) : Node := default blankNode (nodes w !! n).

Definition updNode (n : NodeId) (f : Node → Node) (w : World) : World :=
  setNodes (λ ns, <[n := f (getNode w n)]> ns) w.

Definition arrayOf (w : World) (a : ArrayId) : list nat := default [] (arrays w !! a).

Definition cssRulesOf (w : World) (s : SheetId) : list string := default [] (sheets w !! s).

Definition withParent (p : option NodeId) (nd : Node) : Node :=
  mkNode (tagName nd) (interface nd) p (childNodes nd) (attr_src nd) (dataset_src nd)
         (type nd) (textContent nd) (sheet nd) (styleElementTarget nd).

Definition withChildren (cs : list NodeId) (nd : Node) : Node :=
  mkNode (tagName nd) (interface nd) (parentNode nd) cs (attr_src nd) (dataset_src nd)
         (type nd) (textContent nd) (sheet nd) (styleElementTarget nd).

Definition withSrc (v : option string) (nd : Node) : Node :=
  mkNode (tagName nd) (interface nd) (parentNode nd) (childNodes nd) v (dataset_src nd)
         (type nd) (textContent nd) (sheet nd) (styleElementTarget nd).

Definition withDatasetSrc (v : option string) (nd : Node) : Node :=
  mkNode (tagName nd) (interface nd) (parentNode nd) (childNodes nd) (attr_src nd) v
         (type nd) (textContent nd) (sheet nd) (styleElementTarget nd).

(** [node.textContent = v], as far as the text goes: that the platform also
    replaces the node's children by one text node is not modelled, and no
    statement below is about the children of a script. *)
Definition withTextContent (v : string) (nd : Node) : Node :=
  mkNode (tagName nd) (interface nd) (parentNode nd) (childNodes nd) (attr_src nd)
         (dataset_src nd) (type nd) v (sheet nd) (styleElementTarget nd).

Definition withSheet (v : option SheetId) (nd : Node) : Node :=
  mkNode (tagName nd) (interface nd) (parentNode nd) (childNodes nd) (attr_src nd)
         (dataset_src nd) (type nd) (textContent nd) v (styleElementTarget nd).

Definition withStyleElementTarget (v : option DynamicDomMutationTarget) (nd : Node) : Node :=
  mkNode (tagName nd) (interface nd) (parentNode nd) (childNodes nd) (attr_src nd)
         (dataset_src nd) (type nd) (textContent nd) (sheet nd) v.

(* ===================================================================== *)
(** * The monad of JavaScript calls: state and exceptions *)
(* ===================================================================== *)

Definition M (A : Type) : Type := World → Completion A * World.

Definition ret {A} (a : A) : M A := λ w, (Normal a, w).

Definition bind {A B} (m : M A) (k : A → M B) : M B :=
  λ w, match m w with
       | (Normal a, w') => k a w'
       | (Throw e, w') => (Throw e, w')
       end.

Definition throw {A} (e : JsError) : M A := λ w, (Throw e, w).

Definition gets {A} (f : World → A) : M A := λ w, (Normal (f w), w).

Definition modify (f : World → World) : M unit := λ w, (Normal tt, f w).

(** [try { m } catch (e) { h e }]. *)
Definition tryCatch {A} (m : M A) (h : JsError → M A) : M A :=
  λ w, match m w with
       | (Normal a, w') => (Normal a, w')
       | (Throw e, w') => h e w'
       end.

Declare Scope js_scope.
Delimit Scope js_scope with js.
Notation "'let*' x ':=' m 'in' k" := (bind m (λ x, k))
  (at level 10, x name, m at level 100, k at level 200) : js_scope.
Notation "m ';;;' k" := (bind m (λ _, k))
  (at level 100, k at level 200, right associativity) : js_scope.
Local Open Scope js_scope.

(** [console.warn(e)]. *)
Definition console_warn (e : JsError) : M unit :=
  modify (setConsoleWarnings (λ l, l ++ [e])).

(* ===================================================================== *)
(** * The platform: tree operations, object URLs, fetch *)
(* ===================================================================== *)

(** The tree operations follow the DOM Standard on the tree structure (parent
    and children); they are what the prototypes hold before any patch. *)

Fixpoint isInclusiveDescendant (fuel : nat) (w : World) (ancestor n : NodeId) : bool :=
  if (ancestor =? n)%nat then true
  else match fuel with
       | O => false
       | S fuel' =>
           match parentNode (getNode w n) with
           | Some p => isInclusiveDescendant fuel' w ancestor p
           | None => false
           end
       end.

(** [this.contains(other)]; [other] may be [null]. *)
Definition contains (w : World) (this : NodeId) (other : option NodeId) : bool :=
  match other with
  | None => false
  | Some n => isInclusiveDescendant (size (nodes w)) w this n
  end.

(** The document node, and [node.isConnected]. *)
Definition document : NodeId := 0.

Definition isConnected (w : World) (n : NodeId) : bool := contains w document (Some n).

(** Remove a node from its parent's children. *)
Definition detach (child : NodeId) (w : World) : World :=
  match parentNode (getNode w child) with
  | None => w
  | Some p =>
      updNode child (withParent None)
        (updNode p (λ nd, withChildren
                            (List.filter (λ x, negb (x =? child)%nat) (childNodes nd)) nd) w)
  end.

Fixpoint insertBeforeInList (child ref : NodeId) (l : list NodeId) : list NodeId :=
  match l with
  | [] => [child]
  | x :: r => if (x =? ref)%nat then child :: x :: r
              else x :: insertBeforeInList child ref r
  end.

Definition attach (this child : NodeId) (ref : option NodeId) (w : World) : World :=
  let place l := match ref with
                 | None => l ++ [child]
                 | Some r => insertBeforeInList child r l
                 end in
  updNode child (withParent (Some this))
    (updNode this (λ nd, withChildren (place (childNodes nd)) nd) w).

(** [Node.prototype.insertBefore.call(this, child, ref)]. *)
Definition nativeInsertBefore (this child : NodeId) (ref : option NodeId) : M NodeId :=
  λ w,
    if contains w child (Some this) then (Throw HierarchyRequestError, w)
    else match ref with
         | None => (Normal child, attach this child None (detach child w))
         | Some r =>
             if negb (bool_decide (parentNode (getNode w r) = Some this))
             then (Throw NotFoundError, w)
             else if (r =? child)%nat then (Normal child, w)
             else (Normal child, attach this child (Some r) (detach child w))
         end.

(** [Node.prototype.removeChild.call(this, child)]. *)
Definition nativeRemoveChild (this child : NodeId) : M NodeId :=
  λ w,
    if bool_decide (parentNode (getNode w child) = Some this)
    then (Normal child, detach child w)
    else (Throw NotFoundError, w).

(** Function objects held by the prototypes.  [insert_call f this child ref]
    is [f.call(this, child, ref)], [remove_call f this child] is
    [f.call(this, child)] where [this] may be [null]; the [_overwritten]
    field is true when [f[overwrittenSymbol] === true]. *)
Record InsertFn := mkInsertFn {
  insert_call : NodeId → NodeId → option NodeId → M NodeId;
  insert_overwritten : bool
}.

Record RemoveFn := mkRemoveFn {
  remove_call : option NodeId → NodeId → M NodeId;
  remove_overwritten : bool
}.

Definition native_appendChild : InsertFn :=
  mkInsertFn (λ this child _, nativeInsertBefore this child None) false.

Definition native_insertBefore : InsertFn :=
  mkInsertFn nativeInsertBefore false.

Definition native_removeChild : RemoveFn :=
  mkRemoveFn (λ this child, match this with
                            | Some t => nativeRemoveChild t child
                            | None => throw TypeError
                            end) false.

(** [URL.createObjectURL(blob)] : a new in-memory resource under a new URL.
    Nothing in the two files revokes one. *)
Definition createObjectURL (b : Blob) : M string :=
  λ w, let url := "blob:" +:+ pretty (length (objectURLs w)) in
       (Normal url, setObjectURLs (λ l, l ++ [(url, b)]) w).

(** [fetch(url).then((res) => res.text()).then(k)] : the request is started
    and its continuation waits until the event loop settles the promise. *)
Definition fetchThen (t : FetchTask) : M unit :=
  modify (setPendingFetches (λ l, l ++ [t])).

(** [Array.prototype.indexOf], -1 when absent. *)
Fixpoint indexOfFrom {A} `{EqDecision A} (x : A) (l : list A) (i : Z) : Z :=
  match l with
  | [] => (-1)%Z
  | y :: r => if decide (y = x) then i else indexOfFrom x r (i + 1)%Z
  end.

Definition indexOf {A} `{EqDecision A} (l : list A) (x : A) : Z := indexOfFrom x l 0%Z.

(** [Array.prototype.splice(index, 1)] for an index in range. *)
Definition splice1 {A} (index : Z) (l : list A) : list A :=
  take (Z.to_nat index) l ++ drop (S (Z.to_nat index)) l.

(* ===================================================================== *)
(** * shared/src/assets-transpilers/script.ts *)
(* ===================================================================== *)

Record TransformerOpts := mkTransformerOpts {
  opts_sandbox : option Sandbox
}.

Definition handleTypes : list string :=
  [ "text/javascript"; "module"; "application/javascript";
    "text/ecmascript"; "application/ecmascript" ].

Definition isValidJavaScriptType (type : option string) : bool :=
  negb (truthyOpt type) || negb (indexOf handleTypes (default "" type) =? -1)%Z.

Section ScriptTransform.

(** [getEntireUrl] of [../utils], which is not among the sources: the
    URL-resolution helper, taken as given. *)
Variable getEntireUrl : string → string → string.

(** The continuation of the fetch, [(code) => { ... }]. *)
Definition fetchContinuation (t : FetchTask) (code : string) : M unit :=
  let codeFactory := makeEvaluateFactory (task_sandbox t) code (task_scriptSrc t) in
  let* url := createObjectURL (mkBlob codeFactory "application/javascript") in
  modify (updNode (task_script t) (withSrc (Some url))).

Definition transpileScript (script : NodeId) (baseURI : string) (opts : TransformerOpts)
    : M unit :=
  let* srcAttribute := gets (λ w, attr_src (getNode w script)) in
  match opts_sandbox opts with
  | Some sandbox =>
      if truthyOpt srcAttribute then
        modify (updNode script (withSrc None));;;
        let scriptSrc := getEntireUrl (default "" srcAttribute) baseURI in
        modify (updNode script (withDatasetSrc (Some scriptSrc)));;;
        fetchThen (mkFetchTask scriptSrc script sandbox scriptSrc)
      else
        let* ty := gets (λ w, type (getNode w script)) in
        if isValidJavaScriptType (Some ty) then
          let* code := gets (λ w, textContent (getNode w script)) in
          if truthy code then
            modify (updNode script (withTextContent (makeEvaluateFactory sandbox code baseURI)))
          else ret tt
        else ret tt
  | None =>
      if truthyOpt srcAttribute then
        modify (updNode script
                  (withSrc (Some (getEntireUrl (default "" srcAttribute) baseURI))))
      else ret tt
  end.

End ScriptTransform.

(** The event loop settles the [i]-th pending fetch: either its text arrives
    and the continuation runs, or the promise is rejected and the
    continuation is dropped.  [None] : there is no such pending fetch. *)
Definition resolveFetch (i : nat) (code : string) (w : World)
    : option (Completion unit * World) :=
  match pendingFetches w !! i with
  | None => None
  | Some t => Some (fetchContinuation t code (setPendingFetches (delete i) w))
  end.

Definition rejectFetch (i : nat) (w : World) : option World :=
  match pendingFetches w !! i with
  | None => None
  | Some _ => Some (setPendingFetches (delete i) w)
  end.

(* ===================================================================== *)
(** * sandbox/src/patchers/dynamicAppend/common.ts *)
(* ===================================================================== *)

Definition SCRIPT_TAG_NAME : string := "SCRIPT".
Definition LINK_TAG_NAME : string := "LINK".
Definition STYLE_TAG_NAME : string := "STYLE".

(** ** Resource classifier *)

Definition isExecutableScriptType (script : Node) : bool :=
  negb (truthy (type script)) || negb (indexOf handleTypes (type script) =? -1)%Z.

(** [tagName?.toUpperCase() === X] is false when [tagName] is [undefined]. *)
Definition isHijackingTag (tagName : option string) : bool :=
  match tagName with
  | None => false
  | Some t =>
      (toUpperCase t =? LINK_TAG_NAME) || (toUpperCase t =? STYLE_TAG_NAME)
      || (toUpperCase t =? SCRIPT_TAG_NAME)
  end.

(** A [case NAME:] of a [switch (tagName)] : strict equality, which an
    [undefined] tag name never meets. *)
Definition tagIs (tagName : option string) (name : string) : bool :=
  match tagName with
  | None => false
  | Some t => (t =? name)
  end.

(** [getStyledElementCSSRules(styledElement)] : the preserved rule list. *)
Definition getStyledElementCSSRules (w : World) (styledElement : NodeId) : option SheetId :=
  styledComponentCSSRulesMap w !! styledElement.

(** [isStyledComponentsLike(element)], as the truth value its callers test. *)
Definition isStyledComponentsLike (w : World) (element : NodeId) : bool :=
  negb (truthy (textContent (getNode w element)))
  && ( match sheet (getNode w element) with
       | Some s => (0 <? length (cssRulesOf w s))%nat
       | None => false
       end
       || match getStyledElementCSSRules w element with
          | Some r => (0 <? length (cssRulesOf w r))%nat
          | None => false
          end ).

(** ** App lifecycle counter *)

(** The value type of [appsCounterMap]. *)
Record AppCount := mkAppCount {
  bootstrappingPatchCount : Z;
  mountingPatchCount : Z
}.

Inductive CalcType := increase | decrease.
Inductive Status := bootstrapping | mounting.

#[global] Instance Status_eq_dec : EqDecision Status.
Proof. solve_decision. Defined.

(** [appCount[`${status}PatchCount`]], read and write. *)
Definition getPatchCount (status : Status) (c : AppCount) : Z :=
  match status with
  | bootstrapping => bootstrappingPatchCount c
  | mounting => mountingPatchCount c
  end.

Definition setPatchCount (status : Status) (v : Z) (c : AppCount) : AppCount :=
  match status with
  | bootstrapping => mkAppCount v (mountingPatchCount c)
  | mounting => mkAppCount (bootstrappingPatchCount c) v
  end.

(** [const appsCounterMap = new Map()] : the process starts with no entry. *)
Definition appsCounterMap_initial : gmap string AppCount := ∅.

(** [calcAppCount(appName, calcType, status)], the map passed explicitly. *)
Definition calcAppCount (appName : string) (calcType : CalcType) (status : Status)
    (appsCounterMap : gmap string AppCount) : gmap string AppCount :=
  let appCount := default (mkAppCount 0 0) (appsCounterMap !! appName) in
  let appCount' :=
    match calcType with
    | increase => setPatchCount status (getPatchCount status appCount + 1)%Z appCount
    | decrease =>
        if (0 <? getPatchCount status appCount)%Z
        then setPatchCount status (getPatchCount status appCount - 1)%Z appCount
        else appCount
    end in
  <[appName := appCount']> appsCounterMap.

(** [isAllAppsUnmounted()] : [Array.from(entries).every(...)]. *)
Definition isAllAppsUnmounted (appsCounterMap : gmap string AppCount) : bool :=
  forallb (fun e => (bootstrappingPatchCount e.2 =? 0)%Z && (mountingPatchCount e.2 =? 0)%Z)
          (map_to_list appsCounterMap).

(** A call of [calcAppCount], as data, and the effect of a sequence of calls. *)
Record CounterCall := mkCall {
  call_app : string;
  call_type : CalcType;
  call_status : Status
}.

Definition runCalls (calls : list CounterCall) (m : gmap string AppCount)
    : gmap string AppCount :=
  fold_left (fun acc c => calcAppCount (call_app c) (call_type c) (call_status c) acc) calls m.

(** The counter of a pair (app, phase); an app without entry counts 0, which
    is the value [calcAppCount] starts it from. *)
Definition counterOf (m : gmap string AppCount) (appName : string) (status : Status) : Z :=
  getPatchCount status (default (mkAppCount 0 0) (m !! appName)).

(** ** Stylesheet rule preserver *)

Definition isHTMLStyleElement (w : World) (n : NodeId) : bool :=
  match interface (getNode w n) with
  | HTMLStyleElement => true
  | _ => false
  end.

(** The body of the [forEach] of [recordStyledComponentsCSSRules]: the live
    rule list object itself is stored, not a copy of it. *)
Definition recordOne (styleElement : NodeId) (w : World) : World :=
  if isHTMLStyleElement w styleElement && isStyledComponentsLike w styleElement then
    match sheet (getNode w styleElement) with
    | Some s => setStyledComponentCSSRulesMap (λ m, <[styleElement := s]> m) w
    | None => w
    end
  else w.

Definition recordStyledComponentsCSSRules (styleElements : list NodeId) (w : World) : World :=
  fold_left (λ acc el, recordOne el acc) styleElements w.

(** [sheet.insertRule(text, index)] of the platform. *)
Definition insertRule (s : SheetId) (text : string) (index : nat) : M nat :=
  λ w, if (length (cssRulesOf w s) <? index)%nat then (Throw IndexSizeError, w)
       else (Normal index,
             setSheets (λ m, <[s := take index (cssRulesOf w s) ++ text :: drop index (cssRulesOf w s)]> m) w).

(** The [for] loop of [rebuildCSSRules].  Its bound [cssRules.length] is read
    from the live list at every turn, so the loop need not end: the model
    takes fuel and answers [None] when it is used up. *)
Fixpoint replayLoop (fuel : nat) (cssRules : SheetId) (stylesheetElement : NodeId) (i : nat)
    (w : World) : option (Completion unit * World) :=
  match fuel with
  | O => None
  | S fuel' =>
      if (i <? length (cssRulesOf w cssRules))%nat then
        match cssRulesOf w cssRules !! i, sheet (getNode w stylesheetElement) with
        | Some cssText, Some cssStyleSheetElement =>
            match insertRule cssStyleSheetElement cssText
                    (length (cssRulesOf w cssStyleSheetElement)) w with
            | (Normal _, w') => replayLoop fuel' cssRules stylesheetElement (S i) w'
            | (Throw e, w') => Some (Throw e, w')
            end
        | _, _ => Some (Throw TypeError, w)
        end
      else Some (Normal tt, w)
  end.

(** The body of the [forEach] of [rebuildCSSRules]. *)
Definition rebuildOne (fuel : nat) (reAppendElement : NodeId → M bool)
    (stylesheetElement : NodeId) (w : World) : option (Completion unit * World) :=
  match reAppendElement stylesheetElement w with
  | (Throw e, w1) => Some (Throw e, w1)
  | (Normal appendSuccess, w1) =>
      if appendSuccess then
        if isHTMLStyleElement w1 stylesheetElement && isStyledComponentsLike w1 stylesheetElement then
          match getStyledElementCSSRules w1 stylesheetElement with
          | Some cssRules => replayLoop fuel cssRules stylesheetElement 0 w1
          | None => Some (Normal tt, w1)
          end
        else Some (Normal tt, w1)
      else Some (Normal tt, w1)
  end.

Fixpoint rebuildCSSRules (fuel : nat) (styleSheetElements : list NodeId)
    (reAppendElement : NodeId → M bool) (w : World) : option (Completion unit * World) :=
  match styleSheetElements with
  | [] => Some (Normal tt, w)
  | el :: rest =>
      match rebuildOne fuel reAppendElement el w with
      | Some (Normal _, w') => rebuildCSSRules fuel rest reAppendElement w'
      | other => other
      end
  end.

(** ** Mutation interceptor *)

Record SandboxConfig := mkSandboxConfig {
  getContainer : M NodeId;
  dynamicStyleSheetElements : ArrayId;
  sandbox : Sandbox
}.

(** The argument of [getOverwrittenAppendChildOrInsertBefore]. *)
Record InsertOpts := mkInsertOpts {
  rawDOMAppendOrInsertBefore : InsertFn;
  isInvokedByMicroApp : NodeId → M bool;
  getSandboxConfig : NodeId → M SandboxConfig;
  target : DynamicDomMutationTarget
}.

(** [Object.defineProperty(el, styleElementTargetSymbol, { value: target, ... })]. *)
Definition defineStyleElementTarget (el : NodeId) (t : DynamicDomMutationTarget) : M unit :=
  modify (updNode el (withStyleElementTarget (Some t))).

(** [array.push(el)]. *)
Definition push (a : ArrayId) (el : NodeId) : M unit :=
  λ w, (Normal tt, setArrays (λ m, <[a := arrayOf w a ++ [el]]> m) w).

Section Interceptor.

(** [transpileAssets] of [@qiankunjs/shared], which is not among the sources
    (only [transpileScript], which it dispatches to, is): taken as given. *)
Variable transpileAssets : NodeId → string → TransformerOpts → M NodeId.

Definition appendChildOrInsertBefore (opts : InsertOpts)
    (this newChild : NodeId) (refChild : option NodeId) : M NodeId :=
  let element := newChild in
  let raw := rawDOMAppendOrInsertBefore opts in
  let* elementTagName := gets (λ w, tagName (getNode w element)) in
  if negb (isHijackingTag elementTagName) then insert_call raw this element refChild
  else
    let* invoked := isInvokedByMicroApp opts element in
    if negb invoked then insert_call raw this element refChild
    else if truthyOpt elementTagName then
      let* containerConfig := getSandboxConfig opts element in
      if tagIs elementTagName LINK_TAG_NAME || tagIs elementTagName STYLE_TAG_NAME then
        let stylesheetElement := newChild in
        defineStyleElementTarget stylesheetElement (target opts);;;
        let* container := getContainer containerConfig in
        let mountDOM := container in
        push (dynamicStyleSheetElements containerConfig) stylesheetElement;;;
        let* inside := gets (λ w, contains w mountDOM refChild) in
        let referenceNode := if inside then refChild else None in
        insert_call raw mountDOM stylesheetElement referenceNode
      else if tagIs elementTagName SCRIPT_TAG_NAME then
        let* container := getContainer containerConfig in
        let mountDOM := container in
        let* inside := gets (λ w, contains w mountDOM refChild) in
        let referenceNode := if inside then refChild else None in
        let* href := gets location_href in
        let* node := transpileAssets element href
                       (mkTransformerOpts (Some (sandbox containerConfig))) in
        insert_call raw mountDOM node referenceNode
      else insert_call raw this element refChild
    else insert_call raw this element refChild.

Definition getOverwrittenAppendChildOrInsertBefore (opts : InsertOpts) : InsertFn :=
  mkInsertFn (appendChildOrInsertBefore opts) true.

(** The [try] block of [removeChild]: [Some r] when it returns [r], [None]
    when control falls out of it. *)
Definition removeChildGuarded (rawRemoveChild : RemoveFn)
    (containerConfigGetter : NodeId → M SandboxConfig)
    (childTagName : option string) (child : NodeId) : M (option NodeId) :=
  let* containerConfig := containerConfigGetter child in
  let* attachedElement :=
    if tagIs childTagName STYLE_TAG_NAME || tagIs childTagName LINK_TAG_NAME then
      let* attached :=
        gets (λ w, default child (dynamicLinkAttachedInlineStyleMap w !! child)) in
      let arr := dynamicStyleSheetElements containerConfig in
      let* dynamicElementIndex := gets (λ w, indexOf (arrayOf w arr) attached) in
      (if negb (dynamicElementIndex =? -1)%Z
       then λ w, (Normal tt, setArrays (λ m, <[arr := splice1 dynamicElementIndex (arrayOf w arr)]> m) w)
       else ret tt);;;
      ret attached
    else if tagIs childTagName SCRIPT_TAG_NAME then
      gets (λ w, default child (dynamicScriptAttachedCommentMap w !! child))
    else ret child in
  let* appWrapper := getContainer containerConfig in
  let container := appWrapper in
  let* inside := gets (λ w, contains w container (Some attachedElement)) in
  if inside then
    let* parent := gets (λ w, parentNode (getNode w attachedElement)) in
    let* r := remove_call rawRemoveChild parent attachedElement in
    ret (Some r)
  else ret None.

Definition removeChild (rawRemoveChild : RemoveFn)
    (containerConfigGetter : NodeId → M SandboxConfig)
    (target : DynamicDomMutationTarget)
    (isInvokedByMicroApp : NodeId → M bool)
    (this : option NodeId) (child : NodeId) : M NodeId :=
  let* childTagName := gets (λ w, tagName (getNode w child)) in
  if negb (isHijackingTag childTagName) then remove_call rawRemoveChild this child
  else
    let* invoked := isInvokedByMicroApp child in
    if negb invoked then remove_call rawRemoveChild this child
    else
      let* returned :=
        tryCatch (removeChildGuarded rawRemoveChild containerConfigGetter childTagName child)
                 (λ e, console_warn e;;; ret None) in
      match returned with
      | Some r => ret r
      | None => remove_call rawRemoveChild this child
      end.

Definition getNewRemoveChild (rawRemoveChild : RemoveFn)
    (containerConfigGetter : NodeId → M SandboxConfig)
    (target : DynamicDomMutationTarget)
    (isInvokedByMicroApp : NodeId → M bool) : RemoveFn :=
  mkRemoveFn (removeChild rawRemoveChild containerConfigGetter target isInvokedByMicroApp) true.

(** The five prototype slots the installer writes. *)
Record Prototypes := mkPrototypes {
  HTMLHeadElement_appendChild : InsertFn;
  HTMLHeadElement_insertBefore : InsertFn;
  HTMLHeadElement_removeChild : RemoveFn;
  HTMLBodyElement_appendChild : InsertFn;
  HTMLBodyElement_removeChild : RemoveFn
}.

(** [patchHTMLDynamicAppendPrototypeFunctions]: the prototypes after the call,
    and the returned [unpatch] as the change it makes to the prototypes. *)
Definition patchHTMLDynamicAppendPrototypeFunctions
    (isInvokedByMicroApp : NodeId → M bool)
    (getSandboxConfig : NodeId → M SandboxConfig)
    (p : Prototypes) : Prototypes * (Prototypes → Prototypes) :=
  let rawHeadAppendChild := HTMLHeadElement_appendChild p in
  let rawBodyAppendChild := HTMLBodyElement_appendChild p in
  let rawHeadInsertBefore := HTMLHeadElement_insertBefore p in
  let p1 :=
    if negb (insert_overwritten rawHeadAppendChild)
       && negb (insert_overwritten rawBodyAppendChild)
       && negb (insert_overwritten rawHeadInsertBefore)
    then
      mkPrototypes
        (getOverwrittenAppendChildOrInsertBefore
           (mkInsertOpts rawHeadAppendChild isInvokedByMicroApp getSandboxConfig head))
        (getOverwrittenAppendChildOrInsertBefore
           (mkInsertOpts rawHeadInsertBefore isInvokedByMicroApp getSandboxConfig head))
        (HTMLHeadElement_removeChild p)
        (getOverwrittenAppendChildOrInsertBefore
           (mkInsertOpts rawBodyAppendChild isInvokedByMicroApp getSandboxConfig body))
        (HTMLBodyElement_removeChild p)
    else p in
  let rawHeadRemoveChild := HTMLHeadElement_removeChild p1 in
  let rawBodyRemoveChild := HTMLBodyElement_removeChild p1 in
  let p2 :=
    if negb (remove_overwritten rawHeadRemoveChild)
       && negb (remove_overwritten rawBodyRemoveChild)
    then
      mkPrototypes
        (HTMLHeadElement_appendChild p1)
        (HTMLHeadElement_insertBefore p1)
        (getNewRemoveChild rawHeadRemoveChild getSandboxConfig head isInvokedByMicroApp)
        (HTMLBodyElement_appendChild p1)
        (getNewRemoveChild rawBodyRemoveChild getSandboxConfig body isInvokedByMicroApp)
    else p1 in
  let unpatch (_ : Prototypes) : Prototypes :=
    mkPrototypes rawHeadAppendChild rawHeadInsertBefore rawHeadRemoveChild
                 rawBodyAppendChild rawBodyRemoveChild in
  (p2, unpatch).

End Interceptor.

(** The prototypes of a page nobody has patched. *)
Definition nativePrototypes : Prototypes :=
  mkPrototypes native_appendChild native_insertBefore native_removeChild
               native_appendChild native_removeChild.

(* ===================================================================== *)
(** * Notions used to state the properties *)
(* ===================================================================== *)





(** The interceptor leaves a node alone: its tag is not a hijacked one (the
    oracle is then not asked, and the state [w'] in which the decision is
    taken is the initial one), or the oracle, asked in [w], answers false and
    leaves the state [w']. *)
Definition passesThrough (isInvokedByMicroApp : NodeId → M bool) (n : NodeId)
    (w w' : World) : Prop :=
  (isHijackingTag (tagName (getNode w n)) = false ∧ w' = w)
  ∨ (isHijackingTag (tagName (getNode w n)) = true
     ∧ isInvokedByMicroApp n w = (Normal false, w')).

(** None of the five slots carries the marker. *)
Definition unpatched (p : Prototypes) : bool :=
  negb (insert_overwritten (HTMLHeadElement_appendChild p))
  && negb (insert_overwritten (HTMLHeadElement_insertBefore p))
  && negb (remove_overwritten (HTMLHeadElement_removeChild p))
  && negb (insert_overwritten (HTMLBodyElement_appendChild p))
  && negb (remove_overwritten (HTMLBodyElement_removeChild p)).

(** What a call on unpatched prototypes installs: one wrapper around each of
    the functions found. *)
Definition oneLayer (transpileAssets : NodeId → string → TransformerOpts → M NodeId)
    (isInv : NodeId → M bool) (getCfg : NodeId → M SandboxConfig)
    (p : Prototypes) : Prototypes :=
  mkPrototypes
    (getOverwrittenAppendChildOrInsertBefore transpileAssets
       (mkInsertOpts (HTMLHeadElement_appendChild p) isInv getCfg head))
    (getOverwrittenAppendChildOrInsertBefore transpileAssets
       (mkInsertOpts (HTMLHeadElement_insertBefore p) isInv getCfg head))
    (getNewRemoveChild (HTMLHeadElement_removeChild p) getCfg head isInv)
    (getOverwrittenAppendChildOrInsertBefore transpileAssets
       (mkInsertOpts (HTMLBodyElement_appendChild p) isInv getCfg body))
    (getNewRemoveChild (HTMLBodyElement_removeChild p) getCfg body isInv).

(** Further callers of the installer, one after the other. *)
Definition installAll (transpileAssets : NodeId → string → TransformerOpts → M NodeId)
    (callers : list ((NodeId → M bool) * (NodeId → M SandboxConfig)))
    (p : Prototypes) : Prototypes :=
  fold_left (λ acc c, (patchHTMLDynamicAppendPrototypeFunctions transpileAssets c.1 c.2 acc).1)
            callers p.

(** The rules preserved for a style node, in their textual form. *)
Definition preservedRules (w : World) (el : NodeId) : list string :=
  match getStyledElementCSSRules w el with
  | Some r => cssRulesOf w r
  | None => []
  end.

(** [n] calls of [calcAppCount] with the same arguments, one after the other. *)
Definition repeatCall (n : nat) (appName : string) (calcType : CalcType) (status : Status)
    (m : gmap string AppCount) : gmap string AppCount :=
  Nat.iter n (calcAppCount appName calcType status) m.

(** A function that only reads: in every state it answers [a] and leaves the
    state as it is. *)
Definition answers {A} (m : M A) (a : A) : Prop := ∀ w, m w = (Normal a, w).

(** The wrapped form of [code] is installed on the script of task [t]: the
    node's [src] is the URL of a registered in-memory resource that holds it. *)
Definition installed (w : World) (t : FetchTask) (code : string) : Prop :=
  ∃ url, attr_src (getNode w (task_script t)) = Some url
         ∧ In (url, mkBlob (makeEvaluateFactory (task_sandbox t) code (task_scriptSrc t))
                           "application/javascript")
              (objectURLs w).

(** Two settlements of the event loop, one after the other. *)
Definition resolveTwo (i : nat) (ci : string) (j : nat) (cj : string) (w : World)
    : option (Completion unit * World) :=
  match resolveFetch i ci w with
  | Some (Normal _, w') => resolveFetch j cj w'
  | other => other
  end.

(* ===================================================================== *)
(** * A small page, for examples *)
(* ===================================================================== *)

Definition elementNode (tag : string) (i : NodeInterface) (parent : option NodeId)
    (children : list NodeId) : Node :=
  mkNode (Some tag) i parent children None None "" "" None None.

(** document(0) > head(1), body(2); body > container(3); container > script(5).
    style(4), div(6) and style(7) are created and not inserted yet; so are the
    scripts 8 (empty [src] attribute, inline code), 9 (a JSON resource) and
    10 (a JSON data island). *)
Definition pageNodes : gmap nat Node :=
  list_to_map
    [ (0, mkNode None OtherNode None [1; 2] None None "" "" None None);
      (1, elementNode "HEAD" OtherNode (Some 0) []);
      (2, elementNode "BODY" OtherNode (Some 0) [3]);
      (3, elementNode "DIV" OtherNode (Some 2) [5]);
      (4, elementNode "STYLE" HTMLStyleElement None []);
      (5, mkNode (Some "SCRIPT") HTMLScriptElement (Some 3) [] (Some "./a.js") None "" ""
                 None None);
      (6, elementNode "DIV" OtherNode None []);
      (7, elementNode "STYLE" HTMLStyleElement None []);
      (8, mkNode (Some "SCRIPT") HTMLScriptElement None [] (Some "") None "" "x=1"
                 None None);
      (9, mkNode (Some "SCRIPT") HTMLScriptElement None [] (Some "./data.json") None
                 "application/json" "" None None);
      (10, mkNode (Some "SCRIPT") HTMLScriptElement None [] None None
                  "application/json" "{}" None None) ].

Definition page : World :=
  mkWorld pageNodes ∅ ∅ ∅ ∅ ∅ "https://host/app/" [] [] [].

Definition appSandbox : Sandbox :=
  mkSandbox (λ code url, "(function(window){" +:+ code +:+ "})(proxy);//# " +:+ url).

(** The configuration of the one micro-app of the page: container 3,
    registry array 0. *)
Definition appConfig : SandboxConfig := mkSandboxConfig (ret 3) 0 appSandbox.

Definition oracleSays (b : bool) : NodeId → M bool := λ _, ret b.

Definition configOracle : NodeId → M SandboxConfig := λ _, ret appConfig.

(** A resolver good enough for the references of the examples. *)
Definition resolveExample (uri baseURI : string) : string :=
  match uri with
  | String "." (String "/" rest) => baseURI +:+ rest
  | _ => uri
  end.

(** Modelled from the spec: [transpileAssets] of the shared package, which is
    not among the sources; for a script node it runs the script transform
    pipeline on the node and hands the node back. *)
Definition transpileAssetsExample (node : NodeId) (baseURI : string) (opts : TransformerOpts)
    : M NodeId :=
  let* t := gets (λ w, tagName (getNode w node)) in
  (if tagIs t SCRIPT_TAG_NAME then transpileScript resolveExample node baseURI opts
   else ret tt);;;
  ret node.

(** The example page while its micro-app is mounted: style 7 sits in the
    container and its sheet (0) holds two rules injected by script. *)
Definition mountedPage : World :=
  updNode 7 (withSheet (Some 0))
    (attach 3 7 None
       (setSheets (λ _, {[ 0 := [".a{color:red}"; ".b{margin:0}"] ]}) page)).

(** Unmounting, for the example: the node leaves the tree and the platform
    drops its association with the sheet. *)
Definition unmountExample (el : NodeId) (w : World) : World :=
  updNode el (withSheet None) (detach el w).

(** The example page once the rules were captured and the app unmounted. *)
Definition styledPage : World :=
  unmountExample 7 (recordStyledComponentsCSSRules [7] mountedPage).

(** Re-appending on remount, for the example: the node goes into container 3,
    and the platform associates a new, empty style sheet (1) with it. *)
Definition reAppendExample (el : NodeId) : M bool :=
  let* _ := nativeInsertBefore 3 el None in
  modify (λ w, updNode el (withSheet (Some 1)) (setSheets (λ m, <[1 := []]> m) w));;;
  ret true.

(** What a capture stores for a node in state [w], if anything: the node's
    sheet, when the node is a style element that passes
    [isStyledComponentsLike] and has a sheet. *)
Definition captureOf (w : World) (el : NodeId) : option SheetId :=
  if isHTMLStyleElement w el && isStyledComponentsLike w el
  then sheet (getNode w el)
  else None.

(** The example page with the fetches of the scripts 5 and 9 pending. *)
Definition twoFetchesPage : World :=
  (transpileScript resolveExample 9 "https://host/app/" (mkTransformerOpts (Some appSandbox))
     (transpileScript resolveExample 5 "https://host/app/"
        (mkTransformerOpts (Some appSandbox)) page).2).2.




(** The example page where node 7 is a style element outside the HTML
    namespace: its tag name is reported in lower case. *)
Definition lowerCasePage : World :=
  updNode 7 (λ _, elementNode "style" OtherNode None []) page.

(** What the replay over a list of nodes needs of the state it starts from:
    every node is a text-less style element whose sheet is [live el] and whose
    preserved list is [pres el], with fewer rules than there is fuel. *)
Definition replayable (live pres : NodeId → SheetId) (fuel : nat) (l : list NodeId)
    (w : World) : Prop :=
  ∀ el, el ∈ l →
    interface (getNode w el) = HTMLStyleElement
    ∧ textContent (getNode w el) = ""
    ∧ sheet (getNode w el) = Some (live el)
    ∧ getStyledElementCSSRules w el = Some (pres el)
    ∧ length (cssRulesOf w (pres el)) < fuel.

(** The example page remounted with two rule-only styles: the styles 4 and 7
    have the new sheets 10 and 11; the lists 20 and 21 were preserved. *)
Definition twoStylesPage : World :=
  setStyledComponentCSSRulesMap (λ _, {[ 4 := 20; 7 := 21 ]})
    (setSheets (λ _, {[ 10 := []; 11 := []; 20 := [".a{color:red}"];
                        21 := [".b{margin:0}"; ".c{top:0}"] ]})
       (updNode 4 (withSheet (Some 10)) (updNode 7 (withSheet (Some 11)) page))).

(** The example page where node 6 is an element whose tag name is spelled
    with a dotless i. *)
Definition dotlessPage : World :=
  updNode 6 (λ _, elementNode "LıNK" OtherNode None []) page.

(* ===================================================================== *)
(** * Theorems *)
(* ===================================================================== *)

Section CounterFacts.

Implicit Types (m : gmap string AppCount) (app : string) (st : Status).

Lemma get_set_same st v c : getPatchCount st (setPatchCount st v c) = v.
Proof. by destruct st. Qed.

Lemma get_set_other st st' v c :
  st ≠ st' → getPatchCount st' (setPatchCount st v c) = getPatchCount st' c.
Proof. by destruct st, st'. Qed.

Lemma counterOf_increase m app st :
  counterOf (calcAppCount app increase st m) app st = (counterOf m app st + 1)%Z.
Proof.
  unfold counterOf, calcAppCount. rewrite lookup_insert_eq. simpl.
  by rewrite get_set_same.
Qed.

Lemma counterOf_decrease m app st :
  counterOf (calcAppCount app decrease st m) app st =
    (if (0 <? counterOf m app st)%Z then counterOf m app st - 1 else counterOf m app st)%Z.
Proof.
  unfold counterOf, calcAppCount. rewrite lookup_insert_eq. simpl.
  destruct (0 <? _)%Z; [by rewrite get_set_same | done].
Qed.

Lemma counterOf_frame m app ty st app' st' :
  (app, st) ≠ (app', st') →
  counterOf (calcAppCount app ty st m) app' st' = counterOf m app' st'.
Proof.
  intros Hne. unfold counterOf, calcAppCount.
  destruct (decide (app = app')) as [->|Happ].
  - rewrite lookup_insert_eq. simpl.
    assert (st ≠ st') by congruence.
    destruct ty; [by rewrite get_set_other|].
    destruct (0 <? _)%Z; [by rewrite get_set_other | done].
  - by rewrite lookup_insert_ne.
Qed.

Lemma calcAppCount_nonneg m app ty st app' st' :
  (0 ≤ counterOf m app' st')%Z →
  (0 ≤ counterOf (calcAppCount app ty st m) app' st')%Z.
Proof.
  intros H.
  destruct (decide ((app, st) = (app', st'))) as [[= <- <-]|Hne].
  - destruct ty.
    + rewrite counterOf_increase. lia.
    + rewrite counterOf_decrease. destruct (0 <? _)%Z eqn:E; lia.
  - by rewrite counterOf_frame.
Qed.

Lemma runCalls_nonneg calls m :
  (∀ app st, (0 ≤ counterOf m app st)%Z) →
  ∀ app st, (0 ≤ counterOf (runCalls calls m) app st)%Z.
Proof.
  revert m. induction calls as [|c calls IH]; intros m Hm; [done|].
  simpl. apply IH. intros app st. by apply calcAppCount_nonneg.
Qed.

Lemma counterOf_initial app st : counterOf appsCounterMap_initial app st = 0%Z.
Proof. unfold counterOf, appsCounterMap_initial. rewrite lookup_empty. by destruct st. Qed.

Lemma isAllAppsUnmounted_spec m :
  isAllAppsUnmounted m = true ↔
  ∀ app c, m !! app = Some c →
           bootstrappingPatchCount c = 0%Z ∧ mountingPatchCount c = 0%Z.
Proof.
  unfold isAllAppsUnmounted. rewrite forallb_forall. split.
  - intros H app c Hc.
    specialize (H (app, c)). simpl in H.
    assert (In (app, c) (map_to_list m)) as Hin
      by (apply list_elem_of_In, elem_of_map_to_list; done).
    apply H in Hin. apply andb_true_iff in Hin as [H1 H2]. lia.
  - intros H [app c] Hin.
    apply list_elem_of_In, elem_of_map_to_list in Hin.
    destruct (H _ _ Hin) as [H1 H2]. simpl. by rewrite H1, H2.
Qed.

End CounterFacts.

(** C3. Along any sequence of [calcAppCount] calls from the initial registry no
    counter is ever negative; [increase] adds 1 to the addressed counter,
    [decrease] subtracts 1 exactly when that counter is strictly positive and
    otherwise leaves it as it is, a call leaves every other (app, phase)
    counter alone; and [isAllAppsUnmounted] is true exactly when every tracked
    app has both counters at 0. *)
Theorem calcAppCount_counter_floor :
  (∀ calls app st, (0 ≤ counterOf (runCalls calls appsCounterMap_initial) app st)%Z) ∧
  (∀ m app st,
      counterOf (calcAppCount app increase st m) app st = (counterOf m app st + 1)%Z) ∧
  (∀ m app st,
      counterOf (calcAppCount app decrease st m) app st =
        (if (0 <? counterOf m app st)%Z then counterOf m app st - 1
         else counterOf m app st)%Z) ∧
  (∀ m app ty st app' st',
      (app, st) ≠ (app', st') →
      counterOf (calcAppCount app ty st m) app' st' = counterOf m app' st') ∧
  (∀ m, isAllAppsUnmounted m = true ↔
        ∀ app c, m !! app = Some c →
                 bootstrappingPatchCount c = 0%Z ∧ mountingPatchCount c = 0%Z).
Proof.
  split; [|split; [|split; [|split]]].
  - intros calls app st. apply runCalls_nonneg.
    intros app' st'. by rewrite counterOf_initial.
  - apply counterOf_increase.
  - apply counterOf_decrease.
  - apply counterOf_frame.
  - apply isAllAppsUnmounted_spec.
Qed.

(** C10. In the initial process state, where the counter registry has no
    entry, [isAllAppsUnmounted] answers true. *)
Theorem isAllAppsUnmounted_initial :
  isAllAppsUnmounted appsCounterMap_initial = true.
Proof.
  unfold isAllAppsUnmounted, appsCounterMap_initial.
  by rewrite map_to_list_empty.
Qed.

(* --------------------------------------------------------------------- *)
(** ** Resource classifier *)
(* --------------------------------------------------------------------- *)

Section Classifier.










(** Spellings outside ASCII that the upper-casing brings to a hijacked tag. *)
Example isHijackingTag_beyond_ascii :
  isHijackingTag (Some "lınk") = true ∧ isHijackingTag (Some "LıNK") = true
  ∧ isHijackingTag (Some "ſtyle") = true ∧ isHijackingTag (Some "ſcript") = true
  ∧ isHijackingTag (Some "ﬆyle") = true ∧ isHijackingTag (Some "ſtylé") = false.
Proof. repeat split; reflexivity. Qed.

End Classifier.

(* --------------------------------------------------------------------- *)
(** ** Mutation interceptor: pass-through *)
(* --------------------------------------------------------------------- *)

Section PassThrough.

Variable transpileAssets : NodeId → string → TransformerOpts → M NodeId.

Lemma appendChildOrInsertBefore_not_hijacked opts this newChild refChild w :
  isHijackingTag (tagName (getNode w newChild)) = false →
  appendChildOrInsertBefore transpileAssets opts this newChild refChild w =
  insert_call (rawDOMAppendOrInsertBefore opts) this newChild refChild w.
Proof.
  intros H. unfold appendChildOrInsertBefore, bind, gets. by rewrite H.
Qed.

Lemma appendChildOrInsertBefore_not_invoked opts this newChild refChild w w' :
  isHijackingTag (tagName (getNode w newChild)) = true →
  isInvokedByMicroApp opts newChild w = (Normal false, w') →
  appendChildOrInsertBefore transpileAssets opts this newChild refChild w =
  insert_call (rawDOMAppendOrInsertBefore opts) this newChild refChild w'.
Proof.
  intros H Hinv. unfold appendChildOrInsertBefore, bind, gets. cbv zeta.
  rewrite H. simpl. by rewrite Hinv.
Qed.

Lemma removeChild_not_hijacked raw getCfg tgt isInv this child w :
  isHijackingTag (tagName (getNode w child)) = false →
  removeChild raw getCfg tgt isInv this child w = remove_call raw this child w.
Proof.
  intros H. unfold removeChild, bind, gets. by rewrite H.
Qed.

Lemma removeChild_not_invoked raw getCfg tgt isInv this child w w' :
  isHijackingTag (tagName (getNode w child)) = true →
  isInv child w = (Normal false, w') →
  removeChild raw getCfg tgt isInv this child w = remove_call raw this child w'.
Proof.
  intros H Hinv. unfold removeChild, bind, gets. rewrite H. simpl. by rewrite Hinv.
Qed.

End PassThrough.



(* --------------------------------------------------------------------- *)
(** ** The store and the platform's tree operations *)
(* --------------------------------------------------------------------- *)

Section Store.

Lemma getNode_updNode_same n f w : getNode (updNode n f w) n = f (getNode w n).
Proof. unfold getNode, updNode, setNodes. simpl. by rewrite lookup_insert_eq. Qed.

Lemma getNode_updNode_other n m f w : n ≠ m → getNode (updNode n f w) m = getNode w m.
Proof. intros H. unfold getNode, updNode, setNodes. simpl. by rewrite lookup_insert_ne. Qed.

Lemma getNode_setPendingFetches f w n : getNode (setPendingFetches f w) n = getNode w n.
Proof. reflexivity. Qed.

Lemma getNode_setSheets f w n : getNode (setSheets f w) n = getNode w n.
Proof. reflexivity. Qed.


(** The original insert operation hands back the node it was given, which is
    then a child of the receiver. *)
Lemma nativeInsertBefore_normal this child ref w r w' :
  nativeInsertBefore this child ref w = (Normal r, w') →
  r = child ∧ parentNode (getNode w' child) = Some this.
Proof.
  unfold nativeInsertBefore.
  destruct (contains w child (Some this)); [discriminate|].
  destruct ref as [x|].
  - case_bool_decide as Hp; simpl; [|discriminate].
    destruct (x =? child)%nat eqn:E.
    + apply Nat.eqb_eq in E. subst x. intros [= <- <-]. done.
    + intros [= <- <-]. split; [done|]. unfold attach. by rewrite getNode_updNode_same.
  - intros [= <- <-]. split; [done|]. unfold attach. by rewrite getNode_updNode_same.
Qed.

Lemma native_insert_normal raw this child ref w r w' :
  raw = native_appendChild ∨ raw = native_insertBefore →
  insert_call raw this child ref w = (Normal r, w') →
  r = child ∧ parentNode (getNode w' child) = Some this.
Proof. intros [->| ->]; simpl; apply nativeInsertBefore_normal. Qed.

End Store.

(* --------------------------------------------------------------------- *)
(** ** Mutation interceptor: redirection of style and link nodes *)
(* --------------------------------------------------------------------- *)



(** The redirection looks at the tag name as it is, while the hijacking test
    upper-cases it: an element whose tag name is not in upper case (as for an
    element outside the HTML namespace) passes the test, has its
    configuration fetched, and is then inserted where the caller asked. *)
Lemma lowercase_style_not_redirected
    (transpileAssets : NodeId → string → TransformerOpts → M NodeId)
    (opts : InsertOpts) (this node : NodeId) (refChild : option NodeId)
    (w w1 w2 : World) (cfg : SandboxConfig) :
  tagName (getNode w node) = Some "style" →
  isInvokedByMicroApp opts node w = (Normal true, w1) →
  getSandboxConfig opts node w1 = (Normal cfg, w2) →
  appendChildOrInsertBefore transpileAssets opts this node refChild w
  = insert_call (rawDOMAppendOrInsertBefore opts) this node refChild w2.
Proof.
  intros Htag Hinv Hcfg. unfold appendChildOrInsertBefore, bind, gets. cbv zeta.
  rewrite Htag. simpl. rewrite Hinv. simpl. by rewrite Hcfg.
Qed.


(* --------------------------------------------------------------------- *)
(** ** Mutation interceptor: errors on the remove path *)
(* --------------------------------------------------------------------- *)

(** The patched remove on a hijacked node of a micro-app, by the outcome of
    its [try] block. *)
Lemma removeChild_by_guarded raw getCfg tgt isInv this child w w1 :
  isHijackingTag (tagName (getNode w child)) = true →
  isInv child w = (Normal true, w1) →
  removeChild raw getCfg tgt isInv this child w =
  match removeChildGuarded raw getCfg (tagName (getNode w child)) child w1 with
  | (Normal (Some r), w2) => (Normal r, w2)
  | (Normal None, w2) => remove_call raw this child w2
  | (Throw e, w2) => remove_call raw this child (console_warn e w2).2
  end.
Proof.
  intros Hh Hinv. unfold removeChild, bind, gets, tryCatch. rewrite Hh. simpl.
  rewrite Hinv. simpl.
  destruct (removeChildGuarded _ _ _ _ _) as [[[r|]|e] w2]; reflexivity.
Qed.

(** C8, as the code has it.  On a hijacked node of a micro-app, an error
    raised inside the guarded path (getting the configuration, finding the
    attached artifact, updating the registry, getting the container, removing
    the artifact from its actual parent) does not reach the caller: it is
    logged and the removal is delegated to the original remove on the original
    target.  The same delegation happens, without log, when the container no
    longer contains the artifact.  The outcome of that delegated call is the
    outcome of the patched remove, so an exception reaches the caller only
    when the delegated original remove raises it. *)
Theorem removeChild_guarded_errors_caught
    (rawRemoveChild : RemoveFn) (getCfg : NodeId → M SandboxConfig)
    (tgt : DynamicDomMutationTarget) (isInv : NodeId → M bool)
    (this : option NodeId) (child : NodeId) (w w1 : World) :
  isHijackingTag (tagName (getNode w child)) = true →
  isInv child w = (Normal true, w1) →
  (∀ e w2,
      removeChildGuarded rawRemoveChild getCfg (tagName (getNode w child)) child w1
        = (Throw e, w2) →
      removeChild rawRemoveChild getCfg tgt isInv this child w
        = remove_call rawRemoveChild this child (console_warn e w2).2
      ∧ consoleWarnings (console_warn e w2).2 = consoleWarnings w2 ++ [e])
  ∧ (∀ w2,
      removeChildGuarded rawRemoveChild getCfg (tagName (getNode w child)) child w1
        = (Normal None, w2) →
      removeChild rawRemoveChild getCfg tgt isInv this child w
        = remove_call rawRemoveChild this child w2)
  ∧ (∀ r w2,
      removeChildGuarded rawRemoveChild getCfg (tagName (getNode w child)) child w1
        = (Normal (Some r), w2) →
      removeChild rawRemoveChild getCfg tgt isInv this child w = (Normal r, w2))
  ∧ (∀ e w',
      removeChild rawRemoveChild getCfg tgt isInv this child w = (Throw e, w') →
      ∃ w2, remove_call rawRemoveChild this child w2 = (Throw e, w')).
Proof.
  intros Hh Hinv.
  pose proof (removeChild_by_guarded rawRemoveChild getCfg tgt isInv this child w w1 Hh Hinv)
    as Heq.
  split; [|split; [|split]].
  - intros e w2 H. rewrite Heq, H. split; [reflexivity|].
    unfold console_warn, modify, setConsoleWarnings. reflexivity.
  - intros w2 H. rewrite Heq, H. reflexivity.
  - intros r w2 H. rewrite Heq, H. reflexivity.
  - intros e w' Hthrow. rewrite Heq in Hthrow.
    destruct (removeChildGuarded _ _ _ _ _) as [[[r|]|e0] w2]; [discriminate| |]; eauto.
Qed.

(** The redirected path at work on the example page: the style node 4, put in
    the container by the patched head [appendChild], is taken out of the
    container and out of the registry by the patched head [removeChild]. *)
Example insert_then_remove_redirected :
  let opts := mkInsertOpts native_appendChild (oracleSays true) configOracle head in
  let w1 := (appendChildOrInsertBefore transpileAssetsExample opts 1 4 None page).2 in
  let res := removeChild native_removeChild configOracle head (oracleSays true)
               (Some 1) 4 w1 in
  childNodes (getNode w1 3) = [5; 4]
  ∧ arrayOf w1 0 = [4]
  ∧ res.1 = Normal 4
  ∧ childNodes (getNode res.2 3) = [5]
  ∧ arrayOf res.2 0 = []
  ∧ consoleWarnings res.2 = [].
Proof. repeat split; vm_compute; reflexivity. Qed.

(** The configuration oracle throws: the error is logged, and the script node
    5 is removed by the original operation from the container it sits in. *)
Lemma removeChild_guarded_errors_caught_witness :
  removeChild native_removeChild (λ _, throw (OtherError "no config")) body
      (oracleSays true) (Some 3) 5 page
  = remove_call native_removeChild (Some 3) 5
      (console_warn (OtherError "no config") page).2.
Proof.
  pose proof (removeChild_guarded_errors_caught native_removeChild
                (λ _, throw (OtherError "no config")) body (oracleSays true)
                (Some 3) 5 page page) as H.
  destruct H as (H1 & _).
  - vm_compute. reflexivity.
  - reflexivity.
  - apply (H1 (OtherError "no config") page). reflexivity.
Defined.

(** C8, as stated, fails: the style node 7 of the micro-app is not (or no
    longer) in the container; removing it through the patched head
    [removeChild] falls out of the guarded path to the original remove on the
    head, whose [NotFoundError] reaches the caller. *)
Lemma removeChild_fallback_throws :
  isHijackingTag (tagName (getNode page 7)) = true
  ∧ oracleSays true 7 page = (Normal true, page)
  ∧ remove_call (getNewRemoveChild native_removeChild configOracle head (oracleSays true))
      (Some 1) 7 page
    = (Throw NotFoundError, page).
Proof. split; [|split]; vm_compute; reflexivity. Qed.

(* --------------------------------------------------------------------- *)
(** ** Mutation interceptor: installing and removing the patch *)
(* --------------------------------------------------------------------- *)

Section Install.

Variable transpileAssets : NodeId → string → TransformerOpts → M NodeId.

Lemma patch_unpatched isInv getCfg p :
  unpatched p = true →
  (patchHTMLDynamicAppendPrototypeFunctions transpileAssets isInv getCfg p).1 = oneLayer transpileAssets isInv getCfg p
  ∧ ∀ q, (patchHTMLDynamicAppendPrototypeFunctions transpileAssets isInv getCfg p).2 q = p.
Proof.
  unfold unpatched. rewrite !andb_true_iff, !negb_true_iff.
  intros ((((H1 & H2) & H3) & H4) & H5).
  unfold patchHTMLDynamicAppendPrototypeFunctions, oneLayer. cbv zeta.
  rewrite H1, H2, H4. simpl. rewrite H3, H5. simpl.
  split; [reflexivity|]. intros q. by destruct p.
Qed.

(** A call that finds the marker on the functions installs nothing. *)
Lemma patch_patched isInv getCfg p :
  insert_overwritten (HTMLHeadElement_appendChild p) = true →
  remove_overwritten (HTMLHeadElement_removeChild p) = true →
  (patchHTMLDynamicAppendPrototypeFunctions transpileAssets isInv getCfg p).1 = p.
Proof.
  intros H1 H2. unfold patchHTMLDynamicAppendPrototypeFunctions. cbv zeta.
  rewrite H1. simpl. rewrite H2. reflexivity.
Qed.

(** Its [unpatch] puts back the functions that call found: the patched ones. *)
Lemma patch_patched_unpatch isInv getCfg p q :
  insert_overwritten (HTMLHeadElement_appendChild p) = true →
  remove_overwritten (HTMLHeadElement_removeChild p) = true →
  (patchHTMLDynamicAppendPrototypeFunctions transpileAssets isInv getCfg p).2 q = p.
Proof.
  intros H1 H2. unfold patchHTMLDynamicAppendPrototypeFunctions. cbv zeta.
  rewrite H1. simpl. by destruct p.
Qed.

Lemma installAll_patched callers p :
  insert_overwritten (HTMLHeadElement_appendChild p) = true →
  remove_overwritten (HTMLHeadElement_removeChild p) = true →
  installAll transpileAssets callers p = p.
Proof.
  intros H1 H2. unfold installAll.
  induction callers as [|c callers IH]; [done|].
  cbn [fold_left]. rewrite patch_patched by done. exact IH.
Qed.

End Install.

(** C2, as the code has it.  On prototypes that carry no marker the installer
    puts exactly one wrapper around each of the five functions it finds; any
    number of further calls of the installer, by any callers, finds the marker
    and leaves the prototypes as they are; and the unpatch function returned
    by the installing call puts back the five original functions, however
    many calls of the installer came after it. *)
Theorem patch_once_and_installer_unpatch_restores
    (transpileAssets : NodeId → string → TransformerOpts → M NodeId)
    (isInv : NodeId → M bool) (getCfg : NodeId → M SandboxConfig)
    (callers : list ((NodeId → M bool) * (NodeId → M SandboxConfig)))
    (p : Prototypes) :
  unpatched p = true →
  let installed := patchHTMLDynamicAppendPrototypeFunctions transpileAssets isInv getCfg p in
  installed.1 = oneLayer transpileAssets isInv getCfg p
  ∧ installAll transpileAssets callers installed.1 = installed.1
  ∧ installed.2 (installAll transpileAssets callers installed.1) = p.
Proof.
  intros Hp installed.
  destruct (patch_unpatched transpileAssets isInv getCfg p Hp) as [H1 H2].
  split; [exact H1|]. split; [|apply H2].
  apply installAll_patched; subst installed; rewrite H1; reflexivity.
Qed.

(** Two micro-apps install on the platform's prototypes; the first caller's
    unpatch restores them. *)
Lemma patch_once_and_installer_unpatch_restores_witness :
  let installed :=
    patchHTMLDynamicAppendPrototypeFunctions transpileAssetsExample (oracleSays true)
      configOracle nativePrototypes in
  installed.2
    (installAll transpileAssetsExample [(oracleSays true, configOracle)] installed.1)
  = nativePrototypes.
Proof.
  intros installed.
  apply (patch_once_and_installer_unpatch_restores transpileAssetsExample (oracleSays true)
           configOracle [(oracleSays true, configOracle)] nativePrototypes).
  reflexivity.
Defined.

(** C2, as stated, fails: after two calls of the installer, the unpatch
    function returned by the second call leaves the interception in place:
    the head's [appendChild] still carries the marker and still sends the
    micro-app's style node 4 into the container 3, where the original
    operation makes it a child of the head 1. *)
Lemma second_unpatch_restores_nothing :
  let first :=
    patchHTMLDynamicAppendPrototypeFunctions transpileAssetsExample (oracleSays true)
      configOracle nativePrototypes in
  let second :=
    patchHTMLDynamicAppendPrototypeFunctions transpileAssetsExample (oracleSays true)
      configOracle first.1 in
  let after := second.2 second.1 in
  insert_overwritten (HTMLHeadElement_appendChild after) = true
  ∧ remove_overwritten (HTMLHeadElement_removeChild after) = true
  ∧ parentNode (getNode (insert_call (HTMLHeadElement_appendChild after) 1 4 None page).2 4)
    = Some 3
  ∧ parentNode (getNode (insert_call (HTMLHeadElement_appendChild nativePrototypes)
                           1 4 None page).2 4)
    = Some 1.
Proof. repeat split; vm_compute; reflexivity. Qed.

(* --------------------------------------------------------------------- *)
(** ** Script transform pipeline *)
(* --------------------------------------------------------------------- *)

Section ScriptFacts.

Variable getEntireUrl : string → string → string.

Lemma indexOfFrom_absent (x : string) l i : ¬ In x l → indexOfFrom x l i = (-1)%Z.
Proof.
  revert i. induction l as [|y l IH]; intros i Hx; simpl; [done|].
  destruct (decide (y = x)) as [->|Hne].
  - exfalso. apply Hx. by left.
  - apply IH. intros Hin. apply Hx. by right.
Qed.

Lemma isValidJavaScriptType_false ty :
  ty ≠ "" → ¬ In ty handleTypes → isValidJavaScriptType (Some ty) = false.
Proof.
  intros Hne Hin. unfold isValidJavaScriptType, indexOf.
  rewrite indexOfFrom_absent by exact Hin.
  unfold truthyOpt, truthy. apply String.eqb_neq in Hne. by rewrite Hne.
Qed.

Lemma truthy_nonempty s : s ≠ "" → truthy s = true.
Proof. intros H. unfold truthy. apply String.eqb_neq in H. by rewrite H. Qed.

(** What the transform does, before it returns, to a script with a non-empty
    [src] attribute when a sandbox is supplied. *)
Lemma transpileScript_external script baseURI sandbox w src :
  attr_src (getNode w script) = Some src → src ≠ "" →
  transpileScript getEntireUrl script baseURI (mkTransformerOpts (Some sandbox)) w
  = (Normal tt,
     setPendingFetches
       (λ l, l ++ [mkFetchTask (getEntireUrl src baseURI) script sandbox
                                (getEntireUrl src baseURI)])
       (updNode script (withDatasetSrc (Some (getEntireUrl src baseURI)))
          (updNode script (withSrc None) w))).
Proof.
  intros Hsrc Hne. unfold transpileScript, bind, gets, modify, fetchThen. simpl.
  rewrite Hsrc. simpl. by rewrite truthy_nonempty.
Qed.

(** What the continuation of the fetch does when the text arrives. *)
Lemma resolveFetch_pending i code w t :
  pendingFetches w !! i = Some t →
  let url := "blob:" +:+ pretty (length (objectURLs w)) in
  let blob := mkBlob (makeEvaluateFactory (task_sandbox t) code (task_scriptSrc t))
                     "application/javascript" in
  resolveFetch i code w
  = Some (Normal tt,
          updNode (task_script t) (withSrc (Some url))
            (setObjectURLs (λ l, l ++ [(url, blob)]) (setPendingFetches (delete i) w))).
Proof. intros H. unfold resolveFetch. rewrite H. reflexivity. Qed.

End ScriptFacts.

(** C4, as the code has it.  For a script node whose [src] attribute is
    present and not empty, processed with a sandbox: when the transform
    returns, the attribute is removed, the URL resolved against the base URL
    is recorded in [dataset.src], and one fetch of that URL is pending; when
    the fetch resolves with the text [code], the node's [src] is the URL of a
    new in-memory resource whose content is the sandbox's wrapping of [code],
    not [code] itself. *)
Theorem external_script_sandboxed
    (getEntireUrl : string → string → string) (script : NodeId) (baseURI : string)
    (sandbox : Sandbox) (w : World) (src : string) :
  attr_src (getNode w script) = Some src →
  src ≠ "" →
  let scriptSrc := getEntireUrl src baseURI in
  let task := mkFetchTask scriptSrc script sandbox scriptSrc in
  let res := transpileScript getEntireUrl script baseURI (mkTransformerOpts (Some sandbox)) w in
  res.1 = Normal tt
  ∧ attr_src (getNode res.2 script) = None
  ∧ dataset_src (getNode res.2 script) = Some scriptSrc
  ∧ pendingFetches res.2 = pendingFetches w ++ [task]
  ∧ ∀ w2 i code,
      pendingFetches w2 !! i = Some task →
      ∃ url w3,
        resolveFetch i code w2 = Some (Normal tt, w3)
        ∧ attr_src (getNode w3 script) = Some url
        ∧ In (url, mkBlob (makeEvaluateFactory sandbox code scriptSrc)
                          "application/javascript")
             (objectURLs w3).
Proof.
  intros Hsrc Hne scriptSrc task res.
  subst res. rewrite (transpileScript_external getEntireUrl _ _ _ _ _ Hsrc Hne). simpl.
  split; [done|]. rewrite !getNode_setPendingFetches. split.
  { rewrite getNode_updNode_same. simpl.
    by rewrite getNode_updNode_same. }
  split; [by rewrite getNode_updNode_same|].
  split; [done|].
  intros w2 i code Hpending.
  eexists _, _. split; [by apply resolveFetch_pending|]. simpl.
  split; [by rewrite getNode_updNode_same|].
  apply in_app_iff. right. by left.
Qed.

(** The example of the design document: [./a.js] under [https://host/app/]. *)
Lemma external_script_sandboxed_witness :
  let res := transpileScript resolveExample 5 "https://host/app/"
               (mkTransformerOpts (Some appSandbox)) page in
  attr_src (getNode res.2 5) = None
  ∧ dataset_src (getNode res.2 5) = Some "https://host/app/a.js".
Proof.
  intros res.
  pose proof (external_script_sandboxed resolveExample 5 "https://host/app/" appSandbox
                page "./a.js") as H.
  destruct H as (_ & H2 & H3 & _).
  - reflexivity.
  - discriminate.
  - split; [exact H2 | exact H3].
Defined.

(** C4, as stated, fails for a script node that has a [src] attribute whose
    value is the empty string (node 8): the attribute is not removed, no URL
    is recorded and no fetch is started; the node is handled as an inline
    script. *)
Lemma empty_src_not_removed :
  let res := transpileScript resolveExample 8 "https://host/app/"
               (mkTransformerOpts (Some appSandbox)) page in
  attr_src (getNode page 8) = Some ""
  ∧ attr_src (getNode res.2 8) = Some ""
  ∧ dataset_src (getNode res.2 8) = None
  ∧ pendingFetches res.2 = [].
Proof. repeat split; vm_compute; reflexivity. Qed.

(** C1, as the code has it.  One run of the transform on a script with a
    non-empty [src] attribute, with a sandbox, starts one fetch and creates no
    in-memory resource yet.  When that fetch resolves, in whatever state the
    page then is and wherever the node then is (the continuation reads neither
    the node's parent nor the container), the continuation runs, creates one
    in-memory resource holding the wrapped code, sets it as the node's source
    and leaves the tree as it is; the fetch is then no longer pending, so the
    continuation cannot run a second time.  The resource stays registered. *)
Theorem fetch_continuation_installs_once
    (getEntireUrl : string → string → string) (script : NodeId) (baseURI : string)
    (sandbox : Sandbox) (w : World) (src : string) :
  attr_src (getNode w script) = Some src →
  src ≠ "" →
  let scriptSrc := getEntireUrl src baseURI in
  let task := mkFetchTask scriptSrc script sandbox scriptSrc in
  let res := transpileScript getEntireUrl script baseURI (mkTransformerOpts (Some sandbox)) w in
  pendingFetches res.2 = pendingFetches w ++ [task]
  ∧ objectURLs res.2 = objectURLs w
  ∧ ∀ w2 i code,
      pendingFetches w2 !! i = Some task →
      ∃ url w3,
        resolveFetch i code w2 = Some (Normal tt, w3)
        ∧ attr_src (getNode w3 script) = Some url
        ∧ objectURLs w3
          = objectURLs w2
            ++ [(url, mkBlob (makeEvaluateFactory sandbox code scriptSrc)
                             "application/javascript")]
        ∧ pendingFetches w3 = delete i (pendingFetches w2)
        ∧ length (pendingFetches w3) < length (pendingFetches w2)
        ∧ (∀ n, parentNode (getNode w3 n) = parentNode (getNode w2 n)
                ∧ childNodes (getNode w3 n) = childNodes (getNode w2 n)).
Proof.
  intros Hsrc Hne scriptSrc task res.
  subst res. rewrite (transpileScript_external getEntireUrl _ _ _ _ _ Hsrc Hne). simpl.
  split; [done|]. split; [done|].
  intros w2 i code Hpending.
  eexists _, _. split; [by apply resolveFetch_pending|]. simpl.
  split; [by rewrite getNode_updNode_same|].
  split; [done|]. split; [done|]. split.
  { rewrite length_delete by eauto. apply lookup_lt_Some in Hpending. lia. }
  intros n. destruct (decide (script = n)) as [<-|Hn].
  - rewrite getNode_updNode_same. done.
  - rewrite getNode_updNode_other by done. done.
Qed.

(** The script 5 of the example page: its fetch resolves while it is still in
    the document. *)
Lemma fetch_continuation_installs_once_witness :
  let res := transpileScript resolveExample 5 "https://host/app/"
               (mkTransformerOpts (Some appSandbox)) page in
  length (pendingFetches res.2) = 1 ∧ objectURLs res.2 = [].
Proof.
  intros res.
  pose proof (fetch_continuation_installs_once resolveExample 5 "https://host/app/"
                appSandbox page "./a.js") as H.
  destruct H as (H1 & H2 & _).
  - reflexivity.
  - discriminate.
  - split; [unfold res; rewrite H1; reflexivity | exact H2].
Defined.

(** C1, as stated, fails: the transform runs on script 5, the container 3 is
    then removed from the body, so the script is no longer in the document,
    and the fetch resolves afterwards; the wrapped code is installed on the
    detached node all the same, and the in-memory resource created for it
    stays registered. *)
Lemma stale_fetch_still_installs :
  let w1 := (transpileScript resolveExample 5 "https://host/app/"
               (mkTransformerOpts (Some appSandbox)) page).2 in
  let w2 := (nativeRemoveChild 2 3 w1).2 in
  isConnected w1 5 = true
  ∧ isConnected w2 5 = false
  ∧ ∃ w3, resolveFetch 0 "run()" w2 = Some (Normal tt, w3)
          ∧ isConnected w3 5 = false
          ∧ attr_src (getNode w3 5) = Some "blob:0"
          ∧ objectURLs w3
            = [("blob:0",
                mkBlob (makeEvaluateFactory appSandbox "run()" "https://host/app/a.js")
                       "application/javascript")].
Proof.
  split; [vm_compute; reflexivity|]. split; [vm_compute; reflexivity|].
  eexists. split; [reflexivity|]. repeat split; vm_compute; reflexivity.
Qed.

(** An inline script of a type that is not accepted: nothing changes. *)
Lemma transpileScript_nonexecutable_inline
    (getEntireUrl : string → string → string) (script : NodeId) (baseURI : string)
    (opts : TransformerOpts) (w : World) :
  truthyOpt (attr_src (getNode w script)) = false →
  type (getNode w script) ≠ "" →
  ¬ In (type (getNode w script)) handleTypes →
  transpileScript getEntireUrl script baseURI opts w = (Normal tt, w).
Proof.
  intros Hsrc Hne Hin. unfold transpileScript, bind, gets. simpl.
  rewrite Hsrc. destruct (opts_sandbox opts) as [sandbox|]; [|done].
  by rewrite isValidJavaScriptType_false.
Qed.

(** C5, as stated, fails for a script that references an external resource:
    node 9 has type [application/json] and a [src]; with a sandbox its [src]
    attribute is removed and a fetch is started, without a sandbox its [src]
    is rewritten to the resolved URL. *)
Lemma nonexecutable_external_script_transformed :
  let withSandbox := (transpileScript resolveExample 9 "https://host/app/"
                        (mkTransformerOpts (Some appSandbox)) page).2 in
  let withoutSandbox := (transpileScript resolveExample 9 "https://host/app/"
                           (mkTransformerOpts None) page).2 in
  isValidJavaScriptType (Some (type (getNode page 9))) = false
  ∧ attr_src (getNode page 9) = Some "./data.json"
  ∧ attr_src (getNode withSandbox 9) = None
  ∧ length (pendingFetches withSandbox) = 1
  ∧ attr_src (getNode withoutSandbox 9) = Some "https://host/app/data.json".
Proof. repeat split; vm_compute; reflexivity. Qed.

(* --------------------------------------------------------------------- *)
(** ** Stylesheet rule preserver *)
(* --------------------------------------------------------------------- *)

Section Replay.

Lemma cssRulesOf_insert_same s l w :
  cssRulesOf (setSheets (λ m, <[s := l]> m) w) s = l.
Proof. unfold cssRulesOf, setSheets. simpl. by rewrite lookup_insert_eq. Qed.

Lemma cssRulesOf_insert_other s s' l w :
  s ≠ s' → cssRulesOf (setSheets (λ m, <[s := l]> m) w) s' = cssRulesOf w s'.
Proof. intros H. unfold cssRulesOf, setSheets. simpl. by rewrite lookup_insert_ne. Qed.

(** [insertRule(text, cssRules.length)] appends. *)
Lemma insertRule_at_end s text w :
  insertRule s text (length (cssRulesOf w s)) w
  = (Normal (length (cssRulesOf w s)),
     setSheets (λ m, <[s := cssRulesOf w s ++ [text]]> m) w).
Proof.
  unfold insertRule. rewrite Nat.ltb_irrefl.
  by rewrite take_ge, drop_ge by lia.
Qed.

(** Capture: for a style element without text whose sheet has rules, the
    sheet's live rule list is what gets preserved. *)
Lemma recordStyledComponentsCSSRules_captures el s w :
  interface (getNode w el) = HTMLStyleElement →
  textContent (getNode w el) = "" →
  sheet (getNode w el) = Some s →
  cssRulesOf w s ≠ [] →
  getStyledElementCSSRules (recordStyledComponentsCSSRules [el] w) el = Some s
  ∧ preservedRules (recordStyledComponentsCSSRules [el] w) el = cssRulesOf w s.
Proof.
  intros Hi Ht Hs Hr.
  unfold recordStyledComponentsCSSRules, recordOne, isHTMLStyleElement,
    isStyledComponentsLike, preservedRules, getStyledElementCSSRules. simpl.
  rewrite Hi, Ht, Hs. simpl.
  destruct (cssRulesOf w s) as [|r rs] eqn:E; [done|]. simpl.
  rewrite lookup_insert_eq. split; [done|].
  unfold cssRulesOf in *. simpl. exact E.
Qed.

(** The loop, when the preserved list is not the node's live list: it runs
    once per preserved rule from [i] on and appends them in order. *)
Lemma replayLoop_distinct preserved el live :
  live ≠ preserved →
  ∀ fuel i w,
    sheet (getNode w el) = Some live →
    length (cssRulesOf w preserved) - i < fuel →
    ∃ w',
      replayLoop fuel preserved el i w = Some (Normal tt, w')
      ∧ cssRulesOf w' live = cssRulesOf w live ++ drop i (cssRulesOf w preserved)
      ∧ cssRulesOf w' preserved = cssRulesOf w preserved
      ∧ nodes w' = nodes w.
Proof.
  intros Hne. induction fuel as [|fuel IH]; intros i w Hsheet Hfuel; [lia|].
  simpl. destruct (i <? length (cssRulesOf w preserved))%nat eqn:Hi.
  - apply Nat.ltb_lt in Hi.
    destruct (lookup_lt_is_Some_2 _ _ Hi) as [text Htext].
    rewrite Htext, Hsheet, insertRule_at_end.
    set (w1 := setSheets _ w).
    assert (cssRulesOf w1 preserved = cssRulesOf w preserved) as Hp
      by (by apply cssRulesOf_insert_other).
    destruct (IH (S i) w1) as (w' & Hrun & Hlive & Hpres & Hnodes).
    { exact Hsheet. }
    { rewrite Hp. lia. }
    exists w'. split; [exact Hrun|]. split.
    + rewrite Hlive, Hp. subst w1. rewrite cssRulesOf_insert_same.
      rewrite <- app_assoc. simpl. by rewrite (drop_S _ _ _ Htext).
    + split; [by rewrite Hpres|]. by rewrite Hnodes.
  - apply Nat.ltb_ge in Hi. exists w.
    split; [done|]. by rewrite drop_ge, app_nil_r by lia.
Qed.

(** The loop, when the preserved list is the node's live list itself (the
    sheet was never dropped): every turn lengthens the list it is bounded by,
    and no amount of fuel ends it. *)
Lemma replayLoop_aliased el s :
  ∀ fuel i w,
    sheet (getNode w el) = Some s →
    i < length (cssRulesOf w s) →
    replayLoop fuel s el i w = None.
Proof.
  induction fuel as [|fuel IH]; intros i w Hsheet Hi; [done|].
  simpl. destruct (lookup_lt_is_Some_2 _ _ Hi) as [text Htext].
  apply Nat.ltb_lt in Hi as Hi'. rewrite Hi', Htext, Hsheet, insertRule_at_end.
  apply IH.
  - by rewrite getNode_setSheets.
  - rewrite cssRulesOf_insert_same, length_app. simpl. lia.
Qed.

End Replay.

(** C9. For a rule-only style node (a style element without text) that was
    re-appended with success and has a live rule list which is not the
    preserved list itself, the replay ends and leaves, as the node's live
    rule list, the rules it had followed by the textual forms of the
    preserved rules in their order; when no rule list was preserved for the
    node the replay changes nothing. *)
Theorem rebuildCSSRules_replays_preserved
    (fuel : nat) (reAppendElement : NodeId → M bool) (el : NodeId)
    (w w1 : World) (live : SheetId) :
  reAppendElement el w = (Normal true, w1) →
  interface (getNode w1 el) = HTMLStyleElement →
  textContent (getNode w1 el) = "" →
  sheet (getNode w1 el) = Some live →
  getStyledElementCSSRules w1 el ≠ Some live →
  length (preservedRules w1 el) < fuel →
  ∃ w2,
    rebuildCSSRules fuel [el] reAppendElement w = Some (Normal tt, w2)
    ∧ cssRulesOf w2 live = cssRulesOf w1 live ++ preservedRules w1 el
    ∧ nodes w2 = nodes w1
    ∧ (getStyledElementCSSRules w1 el = None → w2 = w1).
Proof.
  intros Hre Hi Ht Hs Hne Hfuel.
  unfold rebuildCSSRules, rebuildOne, preservedRules in *. rewrite Hre.
  unfold isHTMLStyleElement. rewrite Hi. simpl.
  destruct (getStyledElementCSSRules w1 el) as [preserved|] eqn:Hp.
  - destruct (isStyledComponentsLike w1 el) eqn:Hlike.
    + destruct (replayLoop_distinct preserved el live) with (fuel := fuel) (i := 0) (w := w1)
        as (w2 & Hrun & Hlive & _ & Hnodes); [congruence|done|lia|].
      exists w2. rewrite Hrun. by rewrite Hlive.
    + exists w1. unfold isStyledComponentsLike in Hlike.
      rewrite Ht, Hs, Hp in Hlike. simpl in Hlike.
      apply orb_false_iff in Hlike as [_ H0]. apply Nat.ltb_ge in H0.
      destruct (cssRulesOf w1 preserved); [|simpl in H0; lia].
      by rewrite app_nil_r.
  - exists w1. rewrite app_nil_r. by destruct (isStyledComponentsLike w1 el).
Qed.

(** The style node 7 of the unmounted example app is re-appended and gets its
    two rules back, in order. *)
Lemma rebuildCSSRules_replays_preserved_witness :
  ∃ w2,
    rebuildCSSRules 3 [7] reAppendExample styledPage = Some (Normal tt, w2)
    ∧ cssRulesOf w2 1 = [".a{color:red}"; ".b{margin:0}"].
Proof.
  pose proof (rebuildCSSRules_replays_preserved 3 reAppendExample 7 styledPage
                (reAppendExample 7 styledPage).2 1) as H.
  destruct H as (w2 & H1 & H2 & _).
  - reflexivity.
  - reflexivity.
  - reflexivity.
  - reflexivity.
  - vm_compute. discriminate.
  - vm_compute. lia.
  - exists w2. split; [exact H1|]. rewrite H2. vm_compute. reflexivity.
Defined.

(* ===================================================================== *)
(** * Further properties of the code *)
(* ===================================================================== *)

(* --------------------------------------------------------------------- *)
(** ** App lifecycle counter *)
(* --------------------------------------------------------------------- *)

Section CounterMore.

Implicit Types (m : gmap string AppCount) (app : string) (st : Status).

Lemma isAllAppsUnmounted_insert_zero m app :
  m !! app = None →
  isAllAppsUnmounted (<[app := mkAppCount 0 0]> m) = isAllAppsUnmounted m.
Proof.
  intros Hnone. apply eq_true_iff_eq. rewrite !isAllAppsUnmounted_spec. split.
  - intros H a c Hc. apply (H a c).
    rewrite lookup_insert_ne; [done|]. intros ->. congruence.
  - intros H a c. destruct (decide (app = a)) as [<-|Hne].
    + rewrite lookup_insert_eq. intros [= <-]. done.
    + rewrite lookup_insert_ne by done. apply H.
Qed.

Lemma runCalls_dom calls m : dom m ⊆ dom (runCalls calls m).
Proof.
  revert m. induction calls as [|c calls IH]; intros m; [done|].
  simpl. etrans; [|apply IH]. unfold calcAppCount. rewrite dom_insert. set_solver.
Qed.

Lemma repeat_increase k m app st :
  counterOf (repeatCall k app increase st m) app st = (counterOf m app st + Z.of_nat k)%Z.
Proof.
  unfold repeatCall. induction k as [|k IH]; [simpl; lia|].
  rewrite Nat.iter_succ, counterOf_increase, IH. lia.
Qed.

Lemma repeat_decrease j m app st :
  (0 ≤ counterOf m app st)%Z →
  counterOf (repeatCall j app decrease st m) app st
  = Z.max 0 (counterOf m app st - Z.of_nat j).
Proof.
  intros Hc. unfold repeatCall. induction j as [|j IH]; [simpl; lia|].
  rewrite Nat.iter_succ, counterOf_decrease, IH.
  destruct (0 <? _)%Z eqn:E; [apply Z.ltb_lt in E | apply Z.ltb_ge in E]; lia.
Qed.

Lemma isAllAppsUnmounted_counterOf m :
  isAllAppsUnmounted m = true ↔ ∀ app st, counterOf m app st = 0%Z.
Proof.
  rewrite isAllAppsUnmounted_spec. unfold counterOf. split.
  - intros H app st. destruct (m !! app) as [c|] eqn:E; simpl.
    + destruct (H _ _ E). by destruct st.
    + by destruct st.
  - intros H app c Hc. split.
    + specialize (H app bootstrapping). by rewrite Hc in H.
    + specialize (H app mounting). by rewrite Hc in H.
Qed.

End CounterMore.

(** X1. [calcAppCount] never removes an entry and always leaves one for the
    app it is called for; a [decrease] for an app without entry registers the
    app with both counters at 0, which does not change the answer of
    [isAllAppsUnmounted]; along any sequence of calls the set of tracked apps
    only grows. *)
Theorem calcAppCount_registry_grows :
  (∀ m app ty st, is_Some (calcAppCount app ty st m !! app))
  ∧ (∀ m app ty st app', app' ≠ app → calcAppCount app ty st m !! app' = m !! app')
  ∧ (∀ m app st,
       m !! app = None →
       calcAppCount app decrease st m !! app = Some (mkAppCount 0 0)
       ∧ isAllAppsUnmounted (calcAppCount app decrease st m) = isAllAppsUnmounted m)
  ∧ (∀ calls m, dom m ⊆ dom (runCalls calls m)).
Proof.
  split; [|split; [|split]].
  - intros m app ty st. unfold calcAppCount. rewrite lookup_insert_eq. eauto.
  - intros m app ty st app' Hne. unfold calcAppCount. by rewrite lookup_insert_ne.
  - intros m app st Hnone. unfold calcAppCount. rewrite Hnone. simpl.
    assert ((0 <? getPatchCount st (mkAppCount 0 0))%Z = false) as -> by by destruct st.
    split; [by rewrite lookup_insert_eq|]. by apply isAllAppsUnmounted_insert_zero.
  - apply runCalls_dom.
Qed.

(** X2. On a tracked app whose addressed counter is not negative, an
    [increase] followed by a [decrease] gives back the registry exactly. *)
Theorem increase_then_decrease_restores
    (m : gmap string AppCount) (app : string) (st : Status) (c : AppCount) :
  m !! app = Some c →
  (0 ≤ getPatchCount st c)%Z →
  calcAppCount app decrease st (calcAppCount app increase st m) = m.
Proof.
  intros Hc Hpos. unfold calcAppCount. rewrite lookup_insert_eq, Hc. simpl.
  rewrite get_set_same.
  assert ((0 <? getPatchCount st c + 1)%Z = true) as -> by (apply Z.ltb_lt; lia).
  rewrite insert_insert_eq. apply insert_id. rewrite Hc. f_equal.
  destruct st, c; simpl in *; f_equal; lia.
Qed.

Lemma increase_then_decrease_restores_witness :
  let m := calcAppCount "app1" increase mounting appsCounterMap_initial in
  calcAppCount "app1" decrease bootstrapping (calcAppCount "app1" increase bootstrapping m)
  = m.
Proof.
  intros m.
  apply (increase_then_decrease_restores m "app1" bootstrapping (mkAppCount 0 1)).
  - reflexivity.
  - simpl. lia.
Defined.

(** X3. From a counter that is not negative, [k] increases followed by [j]
    decreases leave [max 0 (c + k - j)]: decrements beyond the increments are
    forgotten, they are not owed to later increments. *)
Theorem increases_then_decreases
    (m : gmap string AppCount) (app : string) (st : Status) (k j : nat) :
  (0 ≤ counterOf m app st)%Z →
  counterOf (repeatCall j app decrease st (repeatCall k app increase st m)) app st
  = Z.max 0 (counterOf m app st + Z.of_nat k - Z.of_nat j).
Proof.
  intros Hc. rewrite repeat_decrease; rewrite repeat_increase; lia.
Qed.

Lemma increases_then_decreases_witness :
  counterOf (repeatCall 3 "app1" decrease mounting
               (repeatCall 1 "app1" increase mounting appsCounterMap_initial))
            "app1" mounting
  = 0%Z.
Proof.
  apply (increases_then_decreases appsCounterMap_initial "app1" mounting 1 3).
  rewrite counterOf_initial. lia.
Defined.

(** X4. [isAllAppsUnmounted] is true exactly when every counter of every app
    reads 0 (an app without entry reads 0); so after an [increase] that
    follows any history of calls from the start of the process it is false,
    until matching decreases have been made. *)
Theorem isAllAppsUnmounted_false_after_increase :
  (∀ m, isAllAppsUnmounted m = true ↔ ∀ app st, counterOf m app st = 0%Z)
  ∧ (∀ calls app st,
       isAllAppsUnmounted
         (calcAppCount app increase st (runCalls calls appsCounterMap_initial)) = false).
Proof.
  split; [apply isAllAppsUnmounted_counterOf|].
  intros calls app st. apply not_true_is_false. intros H.
  apply isAllAppsUnmounted_counterOf with (app := app) (st := st) in H.
  rewrite counterOf_increase in H.
  pose proof (runCalls_nonneg calls appsCounterMap_initial) as Hnn.
  specialize (Hnn (λ a s, eq_ind_r (λ z, (0 ≤ z)%Z) (Z.le_refl 0) (counterOf_initial a s)) app st).
  lia.
Qed.

(* --------------------------------------------------------------------- *)
(** ** Script types and the script transform *)
(* --------------------------------------------------------------------- *)

Section ScriptMore.

Variable getEntireUrl : string → string → string.

Lemma indexOfFrom_present (x : string) l i : In x l → (i ≤ indexOfFrom x l i)%Z.
Proof.
  revert i. induction l as [|y l IH]; intros i Hin; simpl; [done|].
  destruct (decide (y = x)) as [->|Hne]; [lia|].
  destruct Hin as [->|Hin]; [done|]. specialize (IH (i + 1)%Z Hin). lia.
Qed.

Lemma indexOf_absent_iff (x : string) l : indexOf l x = (-1)%Z ↔ ¬ In x l.
Proof.
  unfold indexOf. split.
  - intros H Hin. pose proof (indexOfFrom_present x l 0%Z Hin). lia.
  - apply indexOfFrom_absent.
Qed.

(** The run of the transform on a node whose [src] attribute is absent or
    empty: at most the text changes. *)
Lemma transpileScript_inline script baseURI opts w :
  truthyOpt (attr_src (getNode w script)) = false →
  transpileScript getEntireUrl script baseURI opts w = (Normal tt, w)
  ∨ ∃ sandbox,
      opts_sandbox opts = Some sandbox
      ∧ isValidJavaScriptType (Some (type (getNode w script))) = true
      ∧ truthy (textContent (getNode w script)) = true
      ∧ transpileScript getEntireUrl script baseURI opts w
        = (Normal tt,
           updNode script
             (withTextContent
                (makeEvaluateFactory sandbox (textContent (getNode w script)) baseURI)) w).
Proof.
  intros Hsrc. unfold transpileScript, bind, gets. simpl. rewrite Hsrc.
  destruct (opts_sandbox opts) as [sandbox|]; [|by left].
  destruct (isValidJavaScriptType _) eqn:Hty; [|by left].
  destruct (truthy _) eqn:Hcode; [|by left].
  right. exists sandbox. done.
Qed.

(** The run of the transform without a sandbox on a node with a non-empty
    [src]. *)
Lemma transpileScript_plain script baseURI w src :
  attr_src (getNode w script) = Some src → src ≠ "" →
  transpileScript getEntireUrl script baseURI (mkTransformerOpts None) w
  = (Normal tt, updNode script (withSrc (Some (getEntireUrl src baseURI))) w).
Proof.
  intros Hsrc Hne. unfold transpileScript, bind, gets, modify. simpl.
  rewrite Hsrc. simpl. by rewrite truthy_nonempty.
Qed.

Lemma truthyOpt_cases (o : option string) :
  truthyOpt o = false ∨ ∃ s, o = Some s ∧ s ≠ "".
Proof.
  destruct o as [s|]; [|by left]. simpl. unfold truthy.
  destruct (s =? "") eqn:E; [by left|]. right. exists s. split; [done|].
  by apply String.eqb_neq.
Qed.

End ScriptMore.

(** X5. A script type is accepted for execution exactly when it is empty (or
    absent) or is one of the five listed types, compared exactly (an upper
    case or padded spelling is not accepted); and the test of the interceptor
    module, [isExecutableScriptType], decides the same as the test of the
    transform, [isValidJavaScriptType]. *)
Theorem script_type_tests_agree :
  (∀ ty, isValidJavaScriptType (Some ty) = true ↔ ty = "" ∨ In ty handleTypes)
  ∧ isValidJavaScriptType None = true
  ∧ isValidJavaScriptType (Some "Text/JavaScript") = false
  ∧ (∀ script : Node,
       isExecutableScriptType script = isValidJavaScriptType (Some (type script))).
Proof.
  split; [|split; [|split]]; [|reflexivity|reflexivity|reflexivity].
  intros ty. unfold isValidJavaScriptType, truthyOpt, truthy.
  change (default "" (Some ty)) with ty.
  destruct (ty =? "") eqn:E.
  - apply String.eqb_eq in E. split; [by left|done].
  - apply String.eqb_neq in E.
    rewrite orb_true_iff, !negb_true_iff, Z.eqb_neq, indexOf_absent_iff.
    split.
    + intros [H|H]; [discriminate|]. right.
      destruct (In_dec string_dec ty handleTypes); [done|contradiction].
    + intros [H|H]; [contradiction|]. right. tauto.
Qed.

(** X6. A run of the transform on a script node changes nothing but that
    node's [src] attribute, [dataset.src] and text (the children that the
    platform replaces together with the text are not modelled, and nothing is
    said about them), and the list of pending fetches, which gets at most one
    new entry, for that node and the given sandbox.  Every other node of the
    page that is not a child of the script, the script's tag, interface,
    parent, type, sheet and region tag, the registries, the style sheets, the
    side table, the in-memory resources and the console log are as before.
    Without a sandbox no fetch is started and the text and [dataset.src] are
    kept too. *)
Theorem transpileScript_frame
    (getEntireUrl : string → string → string) (script : NodeId) (baseURI : string)
    (opts : TransformerOpts) (w : World) :
  let res := transpileScript getEntireUrl script baseURI opts w in
  let nd := getNode w script in
  let nd' := getNode res.2 script in
  (∀ n, is_Some (nodes w !! n) → n ≠ script → parentNode (getNode w n) ≠ Some script →
        getNode res.2 n = getNode w n)
  ∧ (tagName nd' = tagName nd ∧ interface nd' = interface nd
     ∧ parentNode nd' = parentNode nd
     ∧ type nd' = type nd ∧ sheet nd' = sheet nd
     ∧ styleElementTarget nd' = styleElementTarget nd)
  ∧ (arrays res.2 = arrays w ∧ sheets res.2 = sheets w
     ∧ styledComponentCSSRulesMap res.2 = styledComponentCSSRulesMap w
     ∧ objectURLs res.2 = objectURLs w ∧ consoleWarnings res.2 = consoleWarnings w)
  ∧ (pendingFetches res.2 = pendingFetches w
     ∨ ∃ t, pendingFetches res.2 = pendingFetches w ++ [t]
            ∧ task_script t = script ∧ opts_sandbox opts = Some (task_sandbox t))
  ∧ (opts_sandbox opts = None →
     pendingFetches res.2 = pendingFetches w
     ∧ textContent nd' = textContent nd ∧ dataset_src nd' = dataset_src nd).
Proof.
  intros res nd nd'. subst res nd nd'.
  destruct (truthyOpt_cases (attr_src (getNode w script))) as [Hsrc|(src & Hsrc & Hne)].
  - destruct (transpileScript_inline getEntireUrl script baseURI opts w Hsrc)
      as [->|(sandbox & Hsb & _ & _ & ->)]; simpl.
    + repeat split; auto.
    + rewrite getNode_updNode_same. simpl.
      repeat split; auto; try congruence.
      intros n _ Hn _. by rewrite getNode_updNode_other.
  - destruct opts as [[sandbox|]].
    + rewrite (transpileScript_external getEntireUrl _ _ _ _ _ Hsrc Hne).
      cbn [fst snd opts_sandbox].
      rewrite !getNode_setPendingFetches, !getNode_updNode_same. cbn -[getNode updNode].
      repeat split; auto; try discriminate.
      * intros n _ Hn _. rewrite getNode_setPendingFetches.
        by rewrite !getNode_updNode_other.
      * right. eexists. repeat split; reflexivity.
    + rewrite (transpileScript_plain getEntireUrl _ _ _ _ Hsrc Hne). simpl.
      rewrite !getNode_updNode_same. simpl.
      repeat split; auto.
      intros n _ Hn _. by rewrite getNode_updNode_other.
Qed.

Section ScriptRuns.

Variable getEntireUrl : string → string → string.

Lemma getNode_setObjectURLs f w n : getNode (setObjectURLs f w) n = getNode w n.
Proof. reflexivity. Qed.

(** The run of the transform with a sandbox on an inline script of an
    accepted type that has text. *)
Lemma transpileScript_inline_wrap script baseURI sandbox w :
  truthyOpt (attr_src (getNode w script)) = false →
  isValidJavaScriptType (Some (type (getNode w script))) = true →
  textContent (getNode w script) ≠ "" →
  transpileScript getEntireUrl script baseURI (mkTransformerOpts (Some sandbox)) w
  = (Normal tt,
     updNode script
       (withTextContent (makeEvaluateFactory sandbox (textContent (getNode w script)) baseURI))
       w).
Proof.
  intros Hsrc Hty Hcode. unfold transpileScript, bind, gets, modify. simpl.
  by rewrite Hsrc, Hty, truthy_nonempty.
Qed.

Lemma delete_delete_comm {A} (l : list A) (i j : nat) :
  (i ≤ j)%nat → delete j (delete i l) = delete i (delete (S j) l).
Proof.
  intros Hij. apply list_eq. intros k.
  destruct (decide (k < i)%nat) as [Hki|Hki].
  - rewrite list_lookup_delete_lt by lia. rewrite !list_lookup_delete_lt by lia. done.
  - destruct (decide (k < j)%nat) as [Hkj|Hkj].
    + rewrite list_lookup_delete_lt by lia. rewrite !list_lookup_delete_ge by lia.
      by rewrite list_lookup_delete_lt by lia.
    + rewrite !list_lookup_delete_ge by lia. done.
Qed.

End ScriptRuns.

(** X7. The transform is not idempotent on an inline script: with a sandbox,
    an inline script of an accepted type with text has its text replaced by
    the wrapped text, and a second run wraps the wrapped text again (when it
    is not empty); neither run starts a fetch or touches the [src]
    attribute. *)
Theorem inline_script_wrapped_again
    (getEntireUrl : string → string → string) (script : NodeId) (baseURI : string)
    (sandbox : Sandbox) (w : World) :
  truthyOpt (attr_src (getNode w script)) = false →
  isValidJavaScriptType (Some (type (getNode w script))) = true →
  textContent (getNode w script) ≠ "" →
  let code := textContent (getNode w script) in
  let opts := mkTransformerOpts (Some sandbox) in
  let once := (transpileScript getEntireUrl script baseURI opts w).2 in
  let twice := (transpileScript getEntireUrl script baseURI opts once).2 in
  textContent (getNode once script) = makeEvaluateFactory sandbox code baseURI
  ∧ (makeEvaluateFactory sandbox code baseURI ≠ "" →
     textContent (getNode twice script)
     = makeEvaluateFactory sandbox (makeEvaluateFactory sandbox code baseURI) baseURI)
  ∧ pendingFetches twice = pendingFetches w
  ∧ attr_src (getNode twice script) = attr_src (getNode w script).
Proof.
  intros Hsrc Hty Hcode code opts once twice.
  assert (once = updNode script (withTextContent (makeEvaluateFactory sandbox code baseURI)) w)
    as Honce.
  { subst once opts. by rewrite transpileScript_inline_wrap. }
  assert (getNode once script
          = withTextContent (makeEvaluateFactory sandbox code baseURI) (getNode w script))
    as Hnd by (by rewrite Honce, getNode_updNode_same).
  split; [by rewrite Hnd|]. split.
  { intros Hne. subst twice opts.
    rewrite transpileScript_inline_wrap; rewrite ?Hnd; simpl; try done.
    by rewrite getNode_updNode_same, Hnd. }
  destruct (transpileScript_inline getEntireUrl script baseURI opts once)
    as [Heq|(sb & _ & _ & _ & Heq)].
  { by rewrite Hnd. }
  - subst twice. rewrite Heq. cbn [snd]. by rewrite Hnd, Honce.
  - subst twice. rewrite Heq. cbn [snd].
    rewrite getNode_updNode_same, Hnd. simpl. by rewrite Honce.
Qed.


(** The inline script 8 of the example page. *)
Lemma inline_script_wrapped_again_witness :
  textContent
    (getNode (transpileScript resolveExample 8 "https://host/app/"
                (mkTransformerOpts (Some appSandbox)) page).2 8)
  = "(function(window){x=1})(proxy);//# https://host/app/".
Proof.
  pose proof (inline_script_wrapped_again resolveExample 8 "https://host/app/"
                appSandbox page) as H.
  destruct H as (H1 & _).
  - reflexivity.
  - reflexivity.
  - vm_compute. discriminate.
  - rewrite H1. vm_compute. reflexivity.
Defined.

(** X8. A second run of the transform on an external script, before its fetch
    has resolved, starts no second fetch: the first run removed the [src]
    attribute, so the second run takes the node for an inline script.  After
    both runs exactly one fetch has been added, the attribute is still absent
    and the recorded URL is still the resolved one. *)
Theorem external_script_second_run_no_fetch
    (getEntireUrl : string → string → string) (script : NodeId) (baseURI : string)
    (sandbox : Sandbox) (opts2 : TransformerOpts) (w : World) (src : string) :
  attr_src (getNode w script) = Some src →
  src ≠ "" →
  let scriptSrc := getEntireUrl src baseURI in
  let once := (transpileScript getEntireUrl script baseURI
                 (mkTransformerOpts (Some sandbox)) w).2 in
  let twice := (transpileScript getEntireUrl script baseURI opts2 once).2 in
  pendingFetches twice
    = pendingFetches w ++ [mkFetchTask scriptSrc script sandbox scriptSrc]
  ∧ attr_src (getNode twice script) = None
  ∧ dataset_src (getNode twice script) = Some scriptSrc.
Proof.
  intros Hsrc Hne scriptSrc once twice.
  assert (attr_src (getNode once script) = None
          ∧ dataset_src (getNode once script) = Some scriptSrc
          ∧ pendingFetches once
            = pendingFetches w ++ [mkFetchTask scriptSrc script sandbox scriptSrc])
    as (Ha & Hd & Hp).
  { subst once. rewrite (transpileScript_external getEntireUrl _ _ _ _ _ Hsrc Hne).
    cbn [snd]. rewrite !getNode_setPendingFetches, !getNode_updNode_same. done. }
  destruct (transpileScript_inline getEntireUrl script baseURI opts2 once)
    as [Heq|(sb & _ & _ & _ & Heq)].
  { by rewrite Ha. }
  - subst twice. rewrite Heq. done.
  - subst twice. rewrite Heq. cbn [snd]. rewrite getNode_updNode_same. done.
Qed.

Lemma external_script_second_run_no_fetch_witness :
  let once := (transpileScript resolveExample 5 "https://host/app/"
                 (mkTransformerOpts (Some appSandbox)) page).2 in
  let twice := (transpileScript resolveExample 5 "https://host/app/"
                  (mkTransformerOpts (Some appSandbox)) once).2 in
  length (pendingFetches twice) = 1.
Proof.
  intros once twice.
  pose proof (external_script_second_run_no_fetch resolveExample 5 "https://host/app/"
                appSandbox (mkTransformerOpts (Some appSandbox)) page "./a.js") as H.
  destruct H as (H1 & _).
  - reflexivity.
  - discriminate.
  - unfold twice, once. rewrite H1. reflexivity.
Defined.

(** X9. Two pending fetches for two different script nodes may resolve in
    either order: each continuation installs on its own node the wrapped form
    of its own text, made with its own sandbox and URL, and the same fetches
    remain pending afterwards. *)
Theorem fetch_resolution_order_irrelevant
    (w : World) (i j : nat) (ti tj : FetchTask) (ci cj : string) :
  (i ≤ j)%nat →
  pendingFetches w !! i = Some ti →
  pendingFetches w !! S j = Some tj →
  task_script ti ≠ task_script tj →
  ∃ wa wb,
    resolveTwo i ci j cj w = Some (Normal tt, wa)
    ∧ resolveTwo (S j) cj i ci w = Some (Normal tt, wb)
    ∧ installed wa ti ci ∧ installed wa tj cj
    ∧ installed wb ti ci ∧ installed wb tj cj
    ∧ pendingFetches wa = pendingFetches wb.
Proof.
  intros Hij Hi Hj Hne. unfold resolveTwo.
  rewrite (resolveFetch_pending i ci w ti Hi), (resolveFetch_pending (S j) cj w tj Hj).
  cbv zeta.
  erewrite resolveFetch_pending;
    [|cbn -[delete]; by rewrite list_lookup_delete_ge].
  erewrite (resolveFetch_pending i ci);
    [|cbn -[delete]; by rewrite list_lookup_delete_lt by lia].
  eexists _, _. split; [reflexivity|]. split; [reflexivity|].
  unfold installed.
  repeat split.
  - eexists. rewrite getNode_updNode_other by done.
    rewrite getNode_setObjectURLs, getNode_setPendingFetches, getNode_updNode_same.
    split; [reflexivity|]. cbn. rewrite !in_app_iff. left. right. by left.
  - eexists. rewrite getNode_updNode_same.
    split; [reflexivity|]. cbn. rewrite !in_app_iff. right. by left.
  - eexists. rewrite getNode_updNode_same.
    split; [reflexivity|]. cbn. rewrite !in_app_iff. right. by left.
  - eexists. rewrite getNode_updNode_other by done.
    rewrite getNode_setObjectURLs, getNode_setPendingFetches, getNode_updNode_same.
    split; [reflexivity|]. cbn. rewrite !in_app_iff. left. right. by left.
  - cbn -[delete]. by apply delete_delete_comm.
Qed.

(** The fetches of the scripts 5 and 9 of the example page. *)
Lemma fetch_resolution_order_irrelevant_witness :
  ∃ wa wb,
    resolveTwo 0 "a()" 0 "b()" twoFetchesPage = Some (Normal tt, wa)
    ∧ resolveTwo 1 "b()" 0 "a()" twoFetchesPage = Some (Normal tt, wb)
    ∧ pendingFetches wa = pendingFetches wb.
Proof.
  pose proof (fetch_resolution_order_irrelevant twoFetchesPage 0 0
                (mkFetchTask "https://host/app/a.js" 5 appSandbox "https://host/app/a.js")
                (mkFetchTask "https://host/app/data.json" 9 appSandbox
                             "https://host/app/data.json")
                "a()" "b()") as H.
  destruct H as (wa & wb & H1 & H2 & _ & _ & _ & _ & H3).
  - lia.
  - reflexivity.
  - reflexivity.
  - simpl. lia.
  - exists wa, wb. split; [exact H1|]. split; [exact H2|exact H3].
Defined.

(* --------------------------------------------------------------------- *)
(** ** Stylesheet rule preserver: capture *)
(* --------------------------------------------------------------------- *)

Section Capture.

Lemma recordOne_eq el w :
  recordOne el w
  = match captureOf w el with
    | Some s => setStyledComponentCSSRulesMap (λ m, <[el := s]> m) w
    | None => w
    end.
Proof.
  unfold recordOne, captureOf.
  destruct (isHTMLStyleElement w el && isStyledComponentsLike w el); [|done].
  by destruct (sheet (getNode w el)).
Qed.

Lemma captureOf_sheet w el s : captureOf w el = Some s → sheet (getNode w el) = Some s.
Proof.
  unfold captureOf. by destruct (isHTMLStyleElement w el && isStyledComponentsLike w el).
Qed.

(** What a capture would store depends on the nodes, the sheets and the
    node's own entry of the side table only. *)
Lemma captureOf_ext w w' el :
  nodes w' = nodes w → sheets w' = sheets w →
  styledComponentCSSRulesMap w' !! el = styledComponentCSSRulesMap w !! el →
  captureOf w' el = captureOf w el.
Proof.
  intros Hn Hs Hm.
  unfold captureOf, isHTMLStyleElement, isStyledComponentsLike, getStyledElementCSSRules,
    getNode, cssRulesOf.
  by rewrite Hn, Hs, Hm.
Qed.

Lemma recordOne_fields el w :
  nodes (recordOne el w) = nodes w ∧ sheets (recordOne el w) = sheets w
  ∧ arrays (recordOne el w) = arrays w
  ∧ pendingFetches (recordOne el w) = pendingFetches w
  ∧ objectURLs (recordOne el w) = objectURLs w.
Proof. rewrite recordOne_eq. by destruct (captureOf w el). Qed.

Lemma recordOne_lookup el w el' :
  styledComponentCSSRulesMap (recordOne el w) !! el'
  = if decide (el = el') then
      match captureOf w el with
      | Some s => Some s
      | None => styledComponentCSSRulesMap w !! el'
      end
    else styledComponentCSSRulesMap w !! el'.
Proof.
  rewrite recordOne_eq. destruct (captureOf w el) as [s|]; simpl.
  - rewrite lookup_insert. by destruct (decide (el = el')).
  - by destruct (decide (el = el')).
Qed.

Lemma record_fields l w :
  nodes (recordStyledComponentsCSSRules l w) = nodes w
  ∧ sheets (recordStyledComponentsCSSRules l w) = sheets w
  ∧ arrays (recordStyledComponentsCSSRules l w) = arrays w
  ∧ pendingFetches (recordStyledComponentsCSSRules l w) = pendingFetches w
  ∧ objectURLs (recordStyledComponentsCSSRules l w) = objectURLs w.
Proof.
  revert w. induction l as [|a l IH]; intros w; [done|]. simpl.
  destruct (IH (recordOne a w)) as (-> & -> & -> & -> & ->).
  apply recordOne_fields.
Qed.

Lemma record_lookup l w el :
  styledComponentCSSRulesMap (recordStyledComponentsCSSRules l w) !! el
  = if decide (el ∈ l) then
      match captureOf w el with
      | Some s => Some s
      | None => styledComponentCSSRulesMap w !! el
      end
    else styledComponentCSSRulesMap w !! el.
Proof.
  revert w. induction l as [|a l IH]; intros w.
  { simpl. by destruct (decide (el ∈ [])) as [H|]; [by apply elem_of_nil in H|]. }
  change (recordStyledComponentsCSSRules (a :: l) w)
    with (recordStyledComponentsCSSRules l (recordOne a w)).
  rewrite IH. pose proof (recordOne_fields a w) as (Hn & Hs & _).
  pose proof (recordOne_lookup a w el) as Hl.
  destruct (decide (a = el)) as [->|Hne].
  - destruct (decide (el ∈ el :: l)) as [_|Hnin]; [|exfalso; apply Hnin; by left].
    destruct (captureOf w el) as [s|] eqn:Hc.
    + destruct (decide (el ∈ l)); [|done].
      destruct (captureOf (recordOne el w) el) as [s'|] eqn:Hc'; [|done].
      apply captureOf_sheet in Hc, Hc'.
      unfold getNode in Hc'. rewrite Hn in Hc'. unfold getNode in Hc. congruence.
    + rewrite (captureOf_ext w (recordOne el w) el Hn Hs Hl), Hc, Hl.
      by destruct (decide (el ∈ l)).
  - rewrite (captureOf_ext w (recordOne a w) el Hn Hs Hl), Hl.
    destruct (decide (el ∈ l)) as [Hin|Hnin].
    + destruct (decide (el ∈ a :: l)) as [_|H]; [done|]. exfalso. apply H. by right.
    + destruct (decide (el ∈ a :: l)) as [H|_]; [|done].
      apply elem_of_cons in H as [->|H]; [done|contradiction].
Qed.

End Capture.

(** X10. What a capture over a list of nodes does.  Only the side table of
    preserved rule lists changes.  The entry of a node is replaced by the
    node's current sheet exactly when the node is in the list, is a style
    element that passes [isStyledComponentsLike], and has a sheet; every other
    entry is kept.  In particular a node without sheet, with text, or that is
    not a style element keeps what was preserved for it, while a text-less
    style element for which a non-empty list was preserved has that list
    replaced by its current live list, even when the live list is empty. *)
Theorem recordStyledComponentsCSSRules_characterised
    (styleElements : list NodeId) (w : World) :
  let w' := recordStyledComponentsCSSRules styleElements w in
  (nodes w' = nodes w ∧ sheets w' = sheets w ∧ arrays w' = arrays w)
  ∧ (∀ el, el ∉ styleElements →
           getStyledElementCSSRules w' el = getStyledElementCSSRules w el)
  ∧ (∀ el, captureOf w el = None →
           getStyledElementCSSRules w' el = getStyledElementCSSRules w el)
  ∧ (∀ el s, el ∈ styleElements → captureOf w el = Some s →
             getStyledElementCSSRules w' el = Some s ∧ sheet (getNode w el) = Some s)
  ∧ (∀ el, sheet (getNode w el) = None ∨ textContent (getNode w el) ≠ ""
           ∨ interface (getNode w el) ≠ HTMLStyleElement →
           captureOf w el = None)
  ∧ (∀ el s r,
       interface (getNode w el) = HTMLStyleElement →
       textContent (getNode w el) = "" →
       sheet (getNode w el) = Some s →
       getStyledElementCSSRules w el = Some r →
       cssRulesOf w r ≠ [] →
       captureOf w el = Some s).
Proof.
  intros w'. subst w'. unfold getStyledElementCSSRules.
  split; [|split; [|split; [|split; [|split]]]].
  - pose proof (record_fields styleElements w). tauto.
  - intros el Hnin. rewrite record_lookup. by destruct (decide (el ∈ styleElements)).
  - intros el Hc. rewrite record_lookup, Hc. by destruct (decide (el ∈ styleElements)).
  - intros el s Hin Hc. rewrite record_lookup, Hc.
    split; [by destruct (decide (el ∈ styleElements))|by apply captureOf_sheet].
  - intros el H. unfold captureOf, isHTMLStyleElement, isStyledComponentsLike.
    destruct H as [H|[H|H]].
    + rewrite H. by destruct (_ && _).
    + rewrite (truthy_nonempty _ H). simpl. by rewrite andb_false_r.
    + destruct (interface (getNode w el)); done.
  - intros el s r Hi Ht Hs Hr Hne.
    unfold captureOf, isHTMLStyleElement, isStyledComponentsLike, getStyledElementCSSRules.
    rewrite Hi, Ht, Hs, Hr. simpl.
    destruct (cssRulesOf w r); [done|]. simpl. by rewrite orb_true_r.
Qed.

Section CaptureTwice.

Lemma record_as_set l w :
  ∃ m', recordStyledComponentsCSSRules l w = setStyledComponentCSSRulesMap (λ _, m') w.
Proof.
  revert w. induction l as [|a l IH]; intros w.
  { exists (styledComponentCSSRulesMap w). by destruct w. }
  change (recordStyledComponentsCSSRules (a :: l) w)
    with (recordStyledComponentsCSSRules l (recordOne a w)).
  destruct (IH (recordOne a w)) as [m' ->]. exists m'.
  rewrite recordOne_eq. by destruct (captureOf w a).
Qed.

End CaptureTwice.

(** X11. Capturing is idempotent: a second capture over the same list of
    nodes, with nothing done in between, leaves the whole state as the first
    one left it. *)
Theorem recordStyledComponentsCSSRules_idempotent
    (styleElements : list NodeId) (w : World) :
  recordStyledComponentsCSSRules styleElements
    (recordStyledComponentsCSSRules styleElements w)
  = recordStyledComponentsCSSRules styleElements w.
Proof.
  set (w1 := recordStyledComponentsCSSRules styleElements w).
  destruct (record_as_set styleElements w1) as [m2 H2].
  assert (m2 = styledComponentCSSRulesMap w1) as ->.
  { apply map_eq. intros el.
    assert (styledComponentCSSRulesMap
              (recordStyledComponentsCSSRules styleElements w1) !! el = m2 !! el) as <-
      by (by rewrite H2).
    rewrite record_lookup.
    destruct (decide (el ∈ styleElements)) as [Hin|]; [|done].
    destruct (captureOf w1 el) as [s|] eqn:Hc1; [|done].
    pose proof (record_fields styleElements w) as (Hn & Hs & _). fold w1 in Hn, Hs.
    subst w1. rewrite record_lookup.
    destruct (decide (el ∈ styleElements)); [|done].
    destruct (captureOf w el) as [s0|] eqn:Hc0.
    - apply captureOf_sheet in Hc0, Hc1. unfold getNode in *. rewrite Hn in Hc1. congruence.
    - rewrite (captureOf_ext w _ el Hn Hs) in Hc1; [congruence|].
      rewrite record_lookup, Hc0. by destruct (decide (el ∈ styleElements)). }
  rewrite H2. by destruct w1.
Qed.

(** X12. What a capture keeps is the live rule list of the node's sheet, not a
    copy: a rule inserted in the sheet after the capture, while the node is
    still attached, is among the rules that a later replay will append. *)
Theorem captured_rule_list_is_live
    (el : NodeId) (s : SheetId) (text : string) (w : World) :
  interface (getNode w el) = HTMLStyleElement →
  textContent (getNode w el) = "" →
  sheet (getNode w el) = Some s →
  cssRulesOf w s ≠ [] →
  let captured := recordStyledComponentsCSSRules [el] w in
  let later := (insertRule s text (length (cssRulesOf captured s)) captured).2 in
  preservedRules captured el = cssRulesOf w s
  ∧ preservedRules later el = cssRulesOf w s ++ [text].
Proof.
  intros Hi Ht Hs Hne captured later.
  destruct (recordStyledComponentsCSSRules_captures el s w Hi Ht Hs Hne) as [Hg Hp].
  fold captured in Hg, Hp. split; [exact Hp|].
  subst later. rewrite insertRule_at_end. cbn [snd].
  unfold preservedRules, getStyledElementCSSRules in *. cbn [styledComponentCSSRulesMap setSheets].
  rewrite Hg in *. by rewrite cssRulesOf_insert_same, Hp.
Qed.

(** Style 7 of the mounted example page gets a third rule after the capture. *)
Lemma captured_rule_list_is_live_witness :
  let captured := recordStyledComponentsCSSRules [7] mountedPage in
  preservedRules (insertRule 0 ".c{top:0}" 2 captured).2 7
  = [".a{color:red}"; ".b{margin:0}"; ".c{top:0}"].
Proof.
  intros captured.
  pose proof (captured_rule_list_is_live 7 0 ".c{top:0}" mountedPage) as H.
  destruct H as (_ & H2).
  - reflexivity.
  - reflexivity.
  - reflexivity.
  - vm_compute. discriminate.
  - exact H2.
Defined.

(* --------------------------------------------------------------------- *)
(** ** Stylesheet rule preserver: replay *)
(* --------------------------------------------------------------------- *)

Section ReplayMore.

(** The loop writes to the node's sheet only. *)
Lemma replayLoop_frame preserved el live :
  ∀ fuel i w r w',
    sheet (getNode w el) = Some live →
    replayLoop fuel preserved el i w = Some (r, w') →
    nodes w' = nodes w
    ∧ styledComponentCSSRulesMap w' = styledComponentCSSRulesMap w
    ∧ arrays w' = arrays w
    ∧ ∀ s, s ≠ live → cssRulesOf w' s = cssRulesOf w s.
Proof.
  induction fuel as [|fuel IH]; intros i w r w' Hsheet Hrun; [discriminate|].
  simpl in Hrun. destruct (i <? length (cssRulesOf w preserved))%nat.
  - destruct (cssRulesOf w preserved !! i) as [text|]; [|by injection Hrun as <- <-].
    rewrite Hsheet, insertRule_at_end in Hrun.
    apply IH in Hrun as (Hn & Hm & Ha & Hs); [|exact Hsheet].
    split; [by rewrite Hn|]. split; [by rewrite Hm|]. split; [by rewrite Ha|].
    intros s Hne. rewrite Hs by done. by apply cssRulesOf_insert_other.
  - by injection Hrun as <- <-.
Qed.

(** One element of the [forEach], re-appended with success, whose live list is
    not the preserved one. *)
Lemma rebuildOne_replays fuel reAppendElement el w w1 live :
  reAppendElement el w = (Normal true, w1) →
  interface (getNode w1 el) = HTMLStyleElement →
  textContent (getNode w1 el) = "" →
  sheet (getNode w1 el) = Some live →
  getStyledElementCSSRules w1 el ≠ Some live →
  length (preservedRules w1 el) < fuel →
  ∃ w2,
    rebuildOne fuel reAppendElement el w = Some (Normal tt, w2)
    ∧ cssRulesOf w2 live = cssRulesOf w1 live ++ preservedRules w1 el
    ∧ nodes w2 = nodes w1
    ∧ styledComponentCSSRulesMap w2 = styledComponentCSSRulesMap w1
    ∧ ∀ s, s ≠ live → cssRulesOf w2 s = cssRulesOf w1 s.
Proof.
  intros Hre Hi Ht Hs Hne Hfuel.
  unfold rebuildOne, preservedRules in *. rewrite Hre.
  unfold isHTMLStyleElement. rewrite Hi. simpl.
  destruct (getStyledElementCSSRules w1 el) as [preserved|] eqn:Hp.
  - destruct (isStyledComponentsLike w1 el) eqn:Hlike.
    + destruct (replayLoop_distinct preserved el live) with (fuel := fuel) (i := 0) (w := w1)
        as (w2 & Hrun & Hlive & _ & Hnodes); [congruence|done|lia|].
      destruct (replayLoop_frame preserved el live fuel 0 w1 _ w2 Hs Hrun)
        as (_ & Hm & _ & Hothers).
      exists w2. by rewrite Hrun, Hlive.
    + exists w1. unfold isStyledComponentsLike in Hlike.
      rewrite Ht, Hs, Hp in Hlike. simpl in Hlike.
      apply orb_false_iff in Hlike as [_ H0]. apply Nat.ltb_ge in H0.
      destruct (cssRulesOf w1 preserved); [|simpl in H0; lia].
      by rewrite app_nil_r.
  - exists w1. rewrite app_nil_r. by destruct (isStyledComponentsLike w1 el).
Qed.

End ReplayMore.

(** X13. When the rule list preserved for a node is the live list of the sheet
    the node has after re-appending (the sheet was not renewed, as for a node
    that never left the document), and that list is not empty, the replay
    never ends: each rule it appends lengthens the list that bounds its loop.
    No amount of fuel lets the model return. *)
Theorem rebuildCSSRules_never_ends_on_live_list
    (fuel : nat) (reAppendElement : NodeId → M bool) (el : NodeId) (rest : list NodeId)
    (w w1 : World) (s : SheetId) :
  reAppendElement el w = (Normal true, w1) →
  interface (getNode w1 el) = HTMLStyleElement →
  textContent (getNode w1 el) = "" →
  sheet (getNode w1 el) = Some s →
  getStyledElementCSSRules w1 el = Some s →
  cssRulesOf w1 s ≠ [] →
  rebuildCSSRules fuel (el :: rest) reAppendElement w = None.
Proof.
  intros Hre Hi Ht Hs Hp Hne.
  unfold rebuildCSSRules, rebuildOne. rewrite Hre.
  unfold isHTMLStyleElement, isStyledComponentsLike. rewrite Hi, Ht, Hs, Hp. simpl.
  destruct (cssRulesOf w1 s) as [|r rs] eqn:E; [done|]. simpl.
  rewrite replayLoop_aliased; [done|done|]. rewrite E. simpl. lia.
Qed.

(** Style 7 of the mounted example page, captured and then replayed in place. *)
Lemma rebuildCSSRules_never_ends_on_live_list_witness :
  rebuildCSSRules 1000 [7] (λ _, ret true)
    (recordStyledComponentsCSSRules [7] mountedPage)
  = None.
Proof.
  apply (rebuildCSSRules_never_ends_on_live_list 1000 (λ _, ret true) 7 []
           (recordStyledComponentsCSSRules [7] mountedPage)
           (recordStyledComponentsCSSRules [7] mountedPage) 0).
  - reflexivity.
  - reflexivity.
  - reflexivity.
  - reflexivity.
  - reflexivity.
  - vm_compute. discriminate.
Defined.

(** X14. Replaying is not idempotent: a second replay on a node that kept its
    sheet (its re-append changes nothing) appends the preserved rules a second
    time, so the sheet ends with its own rules followed by two copies of the
    preserved ones. *)
Theorem rebuildCSSRules_twice_duplicates
    (fuel : nat) (reAppendElement : NodeId → M bool) (el : NodeId)
    (w : World) (live preserved : SheetId) :
  answers (reAppendElement el) true →
  interface (getNode w el) = HTMLStyleElement →
  textContent (getNode w el) = "" →
  sheet (getNode w el) = Some live →
  getStyledElementCSSRules w el = Some preserved →
  live ≠ preserved →
  length (cssRulesOf w preserved) < fuel →
  ∃ w1 w2,
    rebuildCSSRules fuel [el] reAppendElement w = Some (Normal tt, w1)
    ∧ rebuildCSSRules fuel [el] reAppendElement w1 = Some (Normal tt, w2)
    ∧ cssRulesOf w1 live = cssRulesOf w live ++ cssRulesOf w preserved
    ∧ cssRulesOf w2 live
      = cssRulesOf w live ++ cssRulesOf w preserved ++ cssRulesOf w preserved.
Proof.
  intros Hre Hi Ht Hs Hp Hne Hfuel.
  assert (preservedRules w el = cssRulesOf w preserved) as Hpr
    by (unfold preservedRules; by rewrite Hp).
  destruct (rebuildOne_replays fuel reAppendElement el w w live)
    as (w1 & Hrun1 & Hlive1 & Hn1 & Hm1 & Ho1);
    [apply Hre|done|done|done|congruence|by rewrite Hpr|].
  assert (getNode w1 el = getNode w el) as Hnd by (unfold getNode; by rewrite Hn1).
  assert (preservedRules w1 el = cssRulesOf w preserved) as Hpr1.
  { unfold preservedRules, getStyledElementCSSRules in *. rewrite Hm1, Hp. by apply Ho1. }
  destruct (rebuildOne_replays fuel reAppendElement el w1 w1 live)
    as (w2 & Hrun2 & Hlive2 & _);
    [apply Hre|by rewrite Hnd|by rewrite Hnd|by rewrite Hnd| |by rewrite Hpr1|].
  { unfold getStyledElementCSSRules in *. rewrite Hm1, Hp. congruence. }
  exists w1, w2. unfold rebuildCSSRules. rewrite Hrun1, Hrun2.
  rewrite Hlive2, Hlive1, Hpr1, Hpr, <- app_assoc. done.
Qed.

(** Style 7 of the example page, re-appended once and replayed twice. *)
Lemma rebuildCSSRules_twice_duplicates_witness :
  let w := (reAppendExample 7 styledPage).2 in
  ∃ w1 w2,
    rebuildCSSRules 3 [7] (λ _, ret true) w = Some (Normal tt, w1)
    ∧ rebuildCSSRules 3 [7] (λ _, ret true) w1 = Some (Normal tt, w2)
    ∧ cssRulesOf w2 1
      = [".a{color:red}"; ".b{margin:0}"; ".a{color:red}"; ".b{margin:0}"].
Proof.
  intros w.
  pose proof (rebuildCSSRules_twice_duplicates 3 (λ _, ret true) 7 w 1 0) as H.
  destruct H as (w1 & w2 & H1 & H2 & _ & H4).
  - intros w0. reflexivity.
  - reflexivity.
  - reflexivity.
  - reflexivity.
  - reflexivity.
  - discriminate.
  - vm_compute. lia.
  - exists w1, w2. split; [exact H1|]. split; [exact H2|].
    rewrite H4. vm_compute. reflexivity.
Defined.

(* --------------------------------------------------------------------- *)
(** ** Mutation interceptor: the installer on any prototypes *)
(* --------------------------------------------------------------------- *)

Section InstallMore.

Variable transpileAssets : NodeId → string → TransformerOpts → M NodeId.

(** The [unpatch] of a call puts back the five functions that call found,
    whatever they were. *)
Lemma unpatch_restores_found isInv getCfg p q :
  (patchHTMLDynamicAppendPrototypeFunctions transpileAssets isInv getCfg p).2 q = p.
Proof.
  unfold patchHTMLDynamicAppendPrototypeFunctions. cbv zeta.
  destruct p as [ha hi hr ba br]. simpl.
  by destruct (negb (insert_overwritten ha) && negb (insert_overwritten ba)
               && negb (insert_overwritten hi)).
Qed.

End InstallMore.

(** X15. The [unpatch] returned by a call of the installer restores the five
    prototype functions exactly as that call found them, whatever they were
    and whatever was installed since.  So, with two installers, unpatching in
    the reverse order of installation ends on the functions found by the
    first, while unpatching in the order of installation ends on the
    functions found by the second, which puts the interception of the first
    back in place after it was removed. *)
Theorem unpatch_restores_what_its_call_found
    (transpileAssets : NodeId → string → TransformerOpts → M NodeId)
    (isInvA isInvB : NodeId → M bool) (getCfgA getCfgB : NodeId → M SandboxConfig)
    (p q : Prototypes) :
  let a := patchHTMLDynamicAppendPrototypeFunctions transpileAssets isInvA getCfgA p in
  let b := patchHTMLDynamicAppendPrototypeFunctions transpileAssets isInvB getCfgB a.1 in
  a.2 q = p
  ∧ b.2 q = a.1
  ∧ a.2 (b.2 b.1) = p
  ∧ b.2 (a.2 b.1) = a.1.
Proof.
  intros a b. subst a b. by rewrite !unpatch_restores_found.
Qed.

(** X16. The installer never wraps a function that carries the marker, and
    never wraps a function twice.  The three insert functions are wrapped
    together, each around the function found in its own slot, exactly when
    none of the three carries the marker; if one of them does (say a function
    installed by another party on [insertBefore] alone), none is wrapped, the
    unmarked ones included.  The two remove functions are handled in the same
    way, independently of the insert functions. *)
Theorem patch_wraps_unmarked_groups_only
    (transpileAssets : NodeId → string → TransformerOpts → M NodeId)
    (isInv : NodeId → M bool) (getCfg : NodeId → M SandboxConfig) (p : Prototypes) :
  let p' := (patchHTMLDynamicAppendPrototypeFunctions transpileAssets isInv getCfg p).1 in
  let insertsFree :=
    negb (insert_overwritten (HTMLHeadElement_appendChild p))
    && negb (insert_overwritten (HTMLBodyElement_appendChild p))
    && negb (insert_overwritten (HTMLHeadElement_insertBefore p)) in
  let removesFree :=
    negb (remove_overwritten (HTMLHeadElement_removeChild p))
    && negb (remove_overwritten (HTMLBodyElement_removeChild p)) in
  (if insertsFree then
     HTMLHeadElement_appendChild p'
       = getOverwrittenAppendChildOrInsertBefore transpileAssets
           (mkInsertOpts (HTMLHeadElement_appendChild p) isInv getCfg head)
     ∧ HTMLHeadElement_insertBefore p'
       = getOverwrittenAppendChildOrInsertBefore transpileAssets
           (mkInsertOpts (HTMLHeadElement_insertBefore p) isInv getCfg head)
     ∧ HTMLBodyElement_appendChild p'
       = getOverwrittenAppendChildOrInsertBefore transpileAssets
           (mkInsertOpts (HTMLBodyElement_appendChild p) isInv getCfg body)
   else
     HTMLHeadElement_appendChild p' = HTMLHeadElement_appendChild p
     ∧ HTMLHeadElement_insertBefore p' = HTMLHeadElement_insertBefore p
     ∧ HTMLBodyElement_appendChild p' = HTMLBodyElement_appendChild p)
  ∧ (if removesFree then
       HTMLHeadElement_removeChild p'
         = getNewRemoveChild (HTMLHeadElement_removeChild p) getCfg head isInv
       ∧ HTMLBodyElement_removeChild p'
         = getNewRemoveChild (HTMLBodyElement_removeChild p) getCfg body isInv
     else
       HTMLHeadElement_removeChild p' = HTMLHeadElement_removeChild p
       ∧ HTMLBodyElement_removeChild p' = HTMLBodyElement_removeChild p)
  ∧ (patchHTMLDynamicAppendPrototypeFunctions transpileAssets isInv getCfg p').1 = p'.
Proof.
  intros p' insertsFree removesFree. subst p' insertsFree removesFree.
  unfold patchHTMLDynamicAppendPrototypeFunctions. cbv zeta.
  destruct p as [[ha [|]] [hi [|]] [hr [|]] [ba [|]] [br [|]]]; simpl; done.
Qed.

(** X17. Installing the interception on unpatched prototypes changes nothing
    for a node that the interceptor leaves alone: through each of the five
    patched prototype functions such a node has the same result and the same
    final state as through the function that was there before. *)
Theorem installed_patch_transparent
    (transpileAssets : NodeId → string → TransformerOpts → M NodeId)
    (isInv : NodeId → M bool) (getCfg : NodeId → M SandboxConfig) (p : Prototypes)
    (this node : NodeId) (refChild : option NodeId) (w w' : World) :
  unpatched p = true →
  passesThrough isInv node w w' →
  let p' := (patchHTMLDynamicAppendPrototypeFunctions transpileAssets isInv getCfg p).1 in
  insert_call (HTMLHeadElement_appendChild p') this node refChild w
    = insert_call (HTMLHeadElement_appendChild p) this node refChild w'
  ∧ insert_call (HTMLHeadElement_insertBefore p') this node refChild w
    = insert_call (HTMLHeadElement_insertBefore p) this node refChild w'
  ∧ insert_call (HTMLBodyElement_appendChild p') this node refChild w
    = insert_call (HTMLBodyElement_appendChild p) this node refChild w'
  ∧ remove_call (HTMLHeadElement_removeChild p') (Some this) node w
    = remove_call (HTMLHeadElement_removeChild p) (Some this) node w'
  ∧ remove_call (HTMLBodyElement_removeChild p') (Some this) node w
    = remove_call (HTMLBodyElement_removeChild p) (Some this) node w'.
Proof.
  intros Hp Hpass p'. subst p'.
  destruct (patch_unpatched transpileAssets isInv getCfg p Hp) as [-> _].
  unfold oneLayer. simpl.
  destruct Hpass as [[Hh ->]|[Hh Hinv]].
  - rewrite !appendChildOrInsertBefore_not_hijacked, !removeChild_not_hijacked by done.
    done.
  - rewrite !(appendChildOrInsertBefore_not_invoked _ _ _ _ _ w w') by done.
    rewrite !(removeChild_not_invoked _ _ _ _ _ _ w w') by done. done.
Qed.

(** A div goes through the patched functions of the example page. *)
Lemma installed_patch_transparent_witness :
  let p' := (patchHTMLDynamicAppendPrototypeFunctions transpileAssetsExample
               (oracleSays true) configOracle nativePrototypes).1 in
  insert_call (HTMLHeadElement_appendChild p') 1 6 None page
  = insert_call native_appendChild 1 6 None page.
Proof.
  intros p'.
  pose proof (installed_patch_transparent transpileAssetsExample (oracleSays true)
                configOracle nativePrototypes 1 6 None page page) as H.
  destruct H as (H1 & _).
  - reflexivity.
  - left. split; reflexivity.
  - exact H1.
Defined.

(* --------------------------------------------------------------------- *)
(** ** Mutation interceptor: errors and edge cases of the insert path *)
(* --------------------------------------------------------------------- *)

Section TreeReads.



End TreeReads.

(** X18. The patched insert has no error handling of its own.  On a node with
    a hijacked tag, an exception of the attribution oracle or of the
    configuration getter reaches the caller and the original insert is not
    called; for a style or link node an exception of [getContainer] reaches
    the caller too, at a point where the node is already tagged with the
    region. *)
Theorem insert_errors_reach_caller
    (transpileAssets : NodeId → string → TransformerOpts → M NodeId)
    (opts : InsertOpts) (this node : NodeId) (refChild : option NodeId) (w : World) :
  isHijackingTag (tagName (getNode w node)) = true →
  (∀ e w1,
      isInvokedByMicroApp opts node w = (Throw e, w1) →
      appendChildOrInsertBefore transpileAssets opts this node refChild w = (Throw e, w1))
  ∧ (∀ e w1 w2,
      isInvokedByMicroApp opts node w = (Normal true, w1) →
      getSandboxConfig opts node w1 = (Throw e, w2) →
      appendChildOrInsertBefore transpileAssets opts this node refChild w = (Throw e, w2))
  ∧ (∀ e w1 w2 w3 cfg,
      tagIs (tagName (getNode w node)) LINK_TAG_NAME
        || tagIs (tagName (getNode w node)) STYLE_TAG_NAME = true →
      isInvokedByMicroApp opts node w = (Normal true, w1) →
      getSandboxConfig opts node w1 = (Normal cfg, w2) →
      getContainer cfg (updNode node (withStyleElementTarget (Some (target opts))) w2)
        = (Throw e, w3) →
      appendChildOrInsertBefore transpileAssets opts this node refChild w = (Throw e, w3)
      ∧ styleElementTarget
          (getNode (updNode node (withStyleElementTarget (Some (target opts))) w2) node)
        = Some (target opts)).
Proof.
  intros Hh.
  assert (truthyOpt (tagName (getNode w node)) = true) as Ht.
  { destruct (tagName (getNode w node)) as [t|]; [|done]. by destruct t. }
  split; [|split].
  - intros e w1 Hinv. unfold appendChildOrInsertBefore, bind, gets. cbv zeta.
    rewrite Hh. simpl. by rewrite Hinv.
  - intros e w1 w2 Hinv Hcfg. unfold appendChildOrInsertBefore, bind, gets. cbv zeta.
    rewrite Hh. simpl. rewrite Hinv. simpl. by rewrite Ht, Hcfg.
  - intros e w1 w2 w3 cfg Htag Hinv Hcfg Hcont. split; [|by rewrite getNode_updNode_same].
    unfold appendChildOrInsertBefore, bind, gets. cbv zeta.
    rewrite Hh. simpl. rewrite Hinv. simpl. rewrite Ht, Hcfg, Htag.
    unfold defineStyleElementTarget, modify. by rewrite Hcont.
Qed.

(** The configuration getter throws while style 4 is appended to the head. *)
Lemma insert_errors_reach_caller_witness :
  appendChildOrInsertBefore transpileAssetsExample
    (mkInsertOpts native_appendChild (oracleSays true)
       (λ _, throw (OtherError "no config")) head) 1 4 None page
  = (Throw (OtherError "no config"), page).
Proof.
  pose proof (insert_errors_reach_caller transpileAssetsExample
                (mkInsertOpts native_appendChild (oracleSays true)
                   (λ _, throw (OtherError "no config")) head) 1 4 None page) as H.
  destruct H as (_ & H2 & _).
  - vm_compute. reflexivity.
  - apply (H2 (OtherError "no config") page page); reflexivity.
Defined.



(* --------------------------------------------------------------------- *)
(** ** Mutation interceptor: script nodes *)
(* --------------------------------------------------------------------- *)

Section ScriptBranch.

Variable transpileAssets : NodeId → string → TransformerOpts → M NodeId.

(** The patched insert on a script node of a micro-app. *)
Lemma appendChildOrInsertBefore_script opts this node refChild w w1 w2 w3 cfg container :
  tagName (getNode w node) = Some SCRIPT_TAG_NAME →
  isInvokedByMicroApp opts node w = (Normal true, w1) →
  getSandboxConfig opts node w1 = (Normal cfg, w2) →
  getContainer cfg w2 = (Normal container, w3) →
  appendChildOrInsertBefore transpileAssets opts this node refChild w
  = bind (transpileAssets node (location_href w3) (mkTransformerOpts (Some (sandbox cfg))))
         (λ n, insert_call (rawDOMAppendOrInsertBefore opts) container n
                 (if contains w3 container refChild then refChild else None))
         w3.
Proof.
  intros Htag Hinv Hcfg Hcont. unfold appendChildOrInsertBefore, bind, gets. cbv zeta.
  rewrite Htag. simpl. rewrite Hinv. simpl. rewrite Hcfg. by rewrite Hcont.
Qed.

End ScriptBranch.

(** X20. A script node with a non-empty [src] inserted by a micro-app, when
    [transpileAssets] runs the script transform on the node and hands the node
    back: the node is given to the original insert with the app's container
    as receiver (the reference node being decided before the transform runs),
    with its [src] attribute removed, the URL resolved against
    [location.href] recorded and one fetch pending; it is neither tagged with
    a region nor put on the dynamic stylesheet registry.  The outcome of the
    original insert, called in that state, is the outcome of the patched one:
    when the platform's own insert completes, the node is returned and is a
    child of the container; when it throws, the exception reaches the caller
    after the attribute was removed and the fetch started. *)
Theorem script_insert_transformed_and_redirected
    (getEntireUrl : string → string → string)
    (transpileAssets : NodeId → string → TransformerOpts → M NodeId)
    (opts : InsertOpts) (this node : NodeId) (refChild : option NodeId)
    (w w1 w2 w3 : World) (cfg : SandboxConfig) (container : NodeId) (src : string) :
  tagName (getNode w node) = Some SCRIPT_TAG_NAME →
  isInvokedByMicroApp opts node w = (Normal true, w1) →
  getSandboxConfig opts node w1 = (Normal cfg, w2) →
  getContainer cfg w2 = (Normal container, w3) →
  attr_src (getNode w3 node) = Some src →
  src ≠ "" →
  let topts := mkTransformerOpts (Some (sandbox cfg)) in
  let w4 := (transpileScript getEntireUrl node (location_href w3) topts w3).2 in
  transpileAssets node (location_href w3) topts w3 = (Normal node, w4) →
  let scriptSrc := getEntireUrl src (location_href w3) in
  appendChildOrInsertBefore transpileAssets opts this node refChild w
    = insert_call (rawDOMAppendOrInsertBefore opts) container node
        (if contains w3 container refChild then refChild else None) w4
  ∧ attr_src (getNode w4 node) = None
  ∧ dataset_src (getNode w4 node) = Some scriptSrc
  ∧ pendingFetches w4
    = pendingFetches w3 ++ [mkFetchTask scriptSrc node (sandbox cfg) scriptSrc]
  ∧ arrays w4 = arrays w3
  ∧ styleElementTarget (getNode w4 node) = styleElementTarget (getNode w3 node)
  ∧ (rawDOMAppendOrInsertBefore opts = native_appendChild
     ∨ rawDOMAppendOrInsertBefore opts = native_insertBefore →
     ∀ r w5, appendChildOrInsertBefore transpileAssets opts this node refChild w
               = (Normal r, w5) →
             r = node ∧ parentNode (getNode w5 node) = Some container).
Proof.
  intros Htag Hinv Hcfg Hcont Hsrc Hne topts w4 Hta scriptSrc.
  assert (appendChildOrInsertBefore transpileAssets opts this node refChild w
          = insert_call (rawDOMAppendOrInsertBefore opts) container node
              (if contains w3 container refChild then refChild else None) w4) as Heq.
  { rewrite (appendChildOrInsertBefore_script transpileAssets opts this node refChild
               w w1 w2 w3 cfg container) by done.
    unfold bind. fold topts. by rewrite Hta. }
  split; [exact Heq|].
  assert (w4 = setPendingFetches
                 (λ l, l ++ [mkFetchTask scriptSrc node (sandbox cfg) scriptSrc])
                 (updNode node (withDatasetSrc (Some scriptSrc))
                    (updNode node (withSrc None) w3))) as Hw4.
  { subst w4 topts. by rewrite (transpileScript_external getEntireUrl _ _ _ _ _ Hsrc Hne). }
  split; [by rewrite Hw4, !getNode_setPendingFetches, !getNode_updNode_same|].
  split; [by rewrite Hw4, !getNode_setPendingFetches, !getNode_updNode_same|].
  split; [by rewrite Hw4|]. split; [by rewrite Hw4|].
  split; [by rewrite Hw4, !getNode_setPendingFetches, !getNode_updNode_same|].
  intros Hraw r w5 Hres. rewrite Heq in Hres. by eapply native_insert_normal.
Qed.

(** Script 9 of the example page is appended to the body by the micro-app. *)
Lemma script_insert_transformed_and_redirected_witness :
  let res := appendChildOrInsertBefore transpileAssetsExample
               (mkInsertOpts native_appendChild (oracleSays true) configOracle body)
               2 9 None page in
  attr_src (getNode res.2 9) = None
  ∧ parentNode (getNode res.2 9) = Some 3
  ∧ length (pendingFetches res.2) = 1.
Proof.
  intros res.
  pose proof (script_insert_transformed_and_redirected resolveExample
                transpileAssetsExample
                (mkInsertOpts native_appendChild (oracleSays true) configOracle body)
                2 9 None page page page page appConfig 3 "./data.json") as H.
  destruct H as (H1 & _).
  - reflexivity.
  - reflexivity.
  - reflexivity.
  - reflexivity.
  - reflexivity.
  - discriminate.
  - vm_compute. reflexivity.
  - unfold res. rewrite H1. vm_compute. repeat split; reflexivity.
Defined.

(* --------------------------------------------------------------------- *)
(** ** Mutation interceptor: the redirected remove path *)
(* --------------------------------------------------------------------- *)

Section RemovePath.







End RemovePath.



(* --------------------------------------------------------------------- *)
(** ** Mutation interceptor: insert then remove *)
(* --------------------------------------------------------------------- *)

Section RoundTrip.

Variable transpileAssets : NodeId → string → TransformerOpts → M NodeId.










End RoundTrip.

Section RoundTripFields.






End RoundTripFields.



(* --------------------------------------------------------------------- *)
(** ** Mutation interceptor: tag names that are not in upper case *)
(* --------------------------------------------------------------------- *)

(** X23. The hijacking test compares the upper-cased tag name, the dispatch
    that follows compares the tag name as it is.  A node of a micro-app whose
    tag name is link, style or script in another spelling than upper case is
    therefore taken in hand (both oracles are called, and their exceptions
    would reach the caller) but is then inserted by the original operation
    where the caller asked, in the shared region: it is not redirected to the
    container, not tagged, not put on the registry and not transformed. *)
Theorem mixed_case_tag_not_redirected
    (transpileAssets : NodeId → string → TransformerOpts → M NodeId)
    (opts : InsertOpts) (this node : NodeId) (refChild : option NodeId)
    (w w1 w2 : World) (cfg : SandboxConfig) (t : string) :
  tagName (getNode w node) = Some t →
  isHijackingTag (Some t) = true →
  t ≠ LINK_TAG_NAME → t ≠ STYLE_TAG_NAME → t ≠ SCRIPT_TAG_NAME →
  isInvokedByMicroApp opts node w = (Normal true, w1) →
  getSandboxConfig opts node w1 = (Normal cfg, w2) →
  appendChildOrInsertBefore transpileAssets opts this node refChild w
  = insert_call (rawDOMAppendOrInsertBefore opts) this node refChild w2.
Proof.
  intros Htag Hh Hl Hs Hc Hinv Hcfg.
  assert (truthyOpt (Some t) = true) as Ht by (by destruct t).
  unfold appendChildOrInsertBefore, bind, gets. cbv zeta.
  rewrite Htag, Hh. cbn [negb]. rewrite Hinv. cbn [negb]. rewrite Ht, Hcfg.
  apply String.eqb_neq in Hl, Hs, Hc. unfold tagIs. by rewrite Hl, Hs, Hc.
Qed.

(** The lower-case style 7 is appended to the head by the micro-app and ends
    in the head. *)
Lemma mixed_case_tag_not_redirected_witness :
  let res := appendChildOrInsertBefore transpileAssetsExample
               (mkInsertOpts native_appendChild (oracleSays true) configOracle head)
               1 7 None lowerCasePage in
  res.1 = Normal 7 ∧ parentNode (getNode res.2 7) = Some 1 ∧ arrayOf res.2 0 = [].
Proof.
  intros res.
  pose proof (mixed_case_tag_not_redirected transpileAssetsExample
                (mkInsertOpts native_appendChild (oracleSays true) configOracle head)
                1 7 None lowerCasePage lowerCasePage lowerCasePage appConfig "style") as H.
  unfold res. rewrite H.
  - vm_compute. repeat split; reflexivity.
  - reflexivity.
  - reflexivity.
  - discriminate.
  - discriminate.
  - discriminate.
  - reflexivity.
  - reflexivity.
Defined.

(* --------------------------------------------------------------------- *)
(** ** Stylesheet rule preserver: capture, remount, replay *)
(* --------------------------------------------------------------------- *)

(** X24. Rule survival.  The rules of a text-less style element are captured
    while its sheet [old] holds them.  Whatever happens afterwards, as long as
    the side table and the captured list are kept, once the node is
    re-appended with success and has a new, empty sheet, the replay ends and
    the new sheet holds exactly the captured rules, in their order. *)
Theorem captured_rules_survive_remount
    (fuel : nat) (reAppendElement : NodeId → M bool) (el : NodeId) (old new : SheetId)
    (w0 wu w1 : World) :
  interface (getNode w0 el) = HTMLStyleElement →
  textContent (getNode w0 el) = "" →
  sheet (getNode w0 el) = Some old →
  cssRulesOf w0 old ≠ [] →
  reAppendElement el wu = (Normal true, w1) →
  styledComponentCSSRulesMap w1
    = styledComponentCSSRulesMap (recordStyledComponentsCSSRules [el] w0) →
  cssRulesOf w1 old = cssRulesOf w0 old →
  interface (getNode w1 el) = HTMLStyleElement →
  textContent (getNode w1 el) = "" →
  sheet (getNode w1 el) = Some new →
  new ≠ old →
  cssRulesOf w1 new = [] →
  length (cssRulesOf w0 old) < fuel →
  ∃ w2,
    rebuildCSSRules fuel [el] reAppendElement wu = Some (Normal tt, w2)
    ∧ cssRulesOf w2 new = cssRulesOf w0 old.
Proof.
  intros Hi0 Ht0 Hs0 Hr0 Hre Hmap Hold Hi1 Ht1 Hs1 Hne Hnew Hfuel.
  destruct (recordStyledComponentsCSSRules_captures el old w0 Hi0 Ht0 Hs0 Hr0) as [Hg _].
  assert (getStyledElementCSSRules w1 el = Some old) as Hg1.
  { unfold getStyledElementCSSRules in *. by rewrite Hmap. }
  assert (preservedRules w1 el = cssRulesOf w0 old) as Hp1.
  { unfold preservedRules. by rewrite Hg1. }
  destruct (rebuildOne_replays fuel reAppendElement el wu w1 new)
    as (w2 & Hrun & Hlive & _); [done|done|done|done|congruence|by rewrite Hp1|].
  exists w2. unfold rebuildCSSRules. rewrite Hrun. split; [done|].
  by rewrite Hlive, Hnew, Hp1.
Qed.

(** Style 7 of the example page: mounted, captured, unmounted, re-appended. *)
Lemma captured_rules_survive_remount_witness :
  ∃ w2,
    rebuildCSSRules 3 [7] reAppendExample styledPage = Some (Normal tt, w2)
    ∧ cssRulesOf w2 1 = cssRulesOf mountedPage 0.
Proof.
  apply (captured_rules_survive_remount 3 reAppendExample 7 0 1 mountedPage styledPage
           (reAppendExample 7 styledPage).2).
  - reflexivity.
  - reflexivity.
  - reflexivity.
  - vm_compute. discriminate.
  - reflexivity.
  - vm_compute. reflexivity.
  - vm_compute. reflexivity.
  - reflexivity.
  - reflexivity.
  - reflexivity.
  - discriminate.
  - vm_compute. reflexivity.
  - vm_compute. lia.
Defined.

Section ReplayList.

Variables (reAppendElement : NodeId → M bool) (live pres : NodeId → SheetId) (fuel : nat).

Lemma rebuildCSSRules_list_aux l :
  NoDup l →
  (∀ el, el ∈ l → answers (reAppendElement el) true) →
  (∀ el el', el ∈ l → el' ∈ l → live el ≠ pres el') →
  (∀ el el', el ∈ l → el' ∈ l → el ≠ el' → live el ≠ live el') →
  ∀ w, replayable live pres fuel l w →
    ∃ w',
      rebuildCSSRules fuel l reAppendElement w = Some (Normal tt, w')
      ∧ nodes w' = nodes w
      ∧ styledComponentCSSRulesMap w' = styledComponentCSSRulesMap w
      ∧ (∀ el, el ∈ l →
               cssRulesOf w' (live el) = cssRulesOf w (live el) ++ cssRulesOf w (pres el))
      ∧ (∀ s, (∀ el, el ∈ l → s ≠ live el) → cssRulesOf w' s = cssRulesOf w s).
Proof.
  induction l as [|a l IH]; intros Hnd Hre Hlp Hll w Hw.
  { exists w. repeat split; try done. intros el H. by apply elem_of_nil in H. }
  apply NoDup_cons in Hnd as [Ha Hnd].
  destruct (Hw a) as (Hi & Ht & Hs & Hg & Hf); [by left|].
  assert (preservedRules w a = cssRulesOf w (pres a)) as Hpa
    by (unfold preservedRules; by rewrite Hg).
  destruct (rebuildOne_replays fuel reAppendElement a w w (live a))
    as (w1 & Hrun & Hlive & Hn1 & Hm1 & Ho1);
    [by apply Hre; left|done|done|done| |by rewrite Hpa|].
  { rewrite Hg. intros [= H]. by apply (Hlp a a); [left|left|]. }
  assert (∀ el, getNode w1 el = getNode w el) as Hnode
    by (intros el; unfold getNode; by rewrite Hn1).
  destruct (IH Hnd) with (w := w1) as (w' & Hrun' & Hn' & Hm' & Hl' & Ho').
  { intros el Hel. apply Hre. by right. }
  { intros el el' Hel Hel'. apply Hlp; by right. }
  { intros el el' Hel Hel'. apply Hll; by right. }
  { intros el Hel. destruct (Hw el) as (Hi' & Ht' & Hs' & Hg' & Hf'); [by right|].
    rewrite Hnode. unfold getStyledElementCSSRules in *. rewrite Hm1.
    repeat split; try done.
    rewrite Ho1; [done|]. intros H. apply (Hlp a el); [by left|by right|done]. }
  exists w'. simpl. rewrite Hrun. split; [exact Hrun'|].
  split; [by rewrite Hn'|]. split; [by rewrite Hm'|]. split.
  - intros el Hel. apply elem_of_cons in Hel as [->|Hel].
    + rewrite Ho'; [by rewrite Hlive, Hpa|].
      intros el Hel. apply Hll; [by left|by right|]. intros ->. contradiction.
    + rewrite Hl' by done.
      rewrite !Ho1; [done| |].
      * intros H. apply (Hlp a el); [by left|by right|done].
      * intros H. apply (Hll a el); [by left|by right| |done]. intros ->. contradiction.
  - intros s Hs'. rewrite Ho'; [|intros el Hel; apply Hs'; by right].
    apply Ho1. apply Hs'. by left.
Qed.

End ReplayList.

(** X25. Replay over a list.  For distinct text-less style elements that were
    re-appended in place, each with its own live sheet and a preserved list
    that is the live sheet of none of them, the replay ends and every node's
    sheet holds its own rules followed by its own preserved rules: the
    preserved rules of one node never end in the sheet of another, and no
    other sheet changes. *)
Theorem rebuildCSSRules_each_node_gets_its_rules
    (reAppendElement : NodeId → M bool) (live pres : NodeId → SheetId) (fuel : nat)
    (styleSheetElements : list NodeId) (w : World) :
  NoDup styleSheetElements →
  (∀ el, el ∈ styleSheetElements → answers (reAppendElement el) true) →
  (∀ el el', el ∈ styleSheetElements → el' ∈ styleSheetElements → live el ≠ pres el') →
  (∀ el el', el ∈ styleSheetElements → el' ∈ styleSheetElements → el ≠ el' →
             live el ≠ live el') →
  replayable live pres fuel styleSheetElements w →
  ∃ w',
    rebuildCSSRules fuel styleSheetElements reAppendElement w = Some (Normal tt, w')
    ∧ (∀ el, el ∈ styleSheetElements →
             cssRulesOf w' (live el)
             = cssRulesOf w (live el) ++ cssRulesOf w (pres el))
    ∧ (∀ s, (∀ el, el ∈ styleSheetElements → s ≠ live el) →
            cssRulesOf w' s = cssRulesOf w s).
Proof.
  intros Hnd Hre Hlp Hll Hw.
  destruct (rebuildCSSRules_list_aux reAppendElement live pres fuel styleSheetElements
              Hnd Hre Hlp Hll w Hw) as (w' & Hrun & _ & _ & Hl & Ho).
  by exists w'.
Qed.

(** The two styles of the remounted example page. *)
Lemma rebuildCSSRules_each_node_gets_its_rules_witness :
  ∃ w',
    rebuildCSSRules 3 [4; 7] (λ _, ret true) twoStylesPage = Some (Normal tt, w')
    ∧ cssRulesOf w' 10 = [".a{color:red}"]
    ∧ cssRulesOf w' 11 = [".b{margin:0}"; ".c{top:0}"].
Proof.
  pose proof (rebuildCSSRules_each_node_gets_its_rules (λ _, ret true)
                (λ n, if (n =? 4)%nat then 10 else 11)
                (λ n, if (n =? 4)%nat then 20 else 21)
                3 [4; 7] twoStylesPage) as H.
  destruct H as (w' & H1 & H2 & _).
  - apply NoDup_cons. split; [|apply NoDup_singleton].
    intros Hin. apply list_elem_of_singleton in Hin. discriminate.
  - intros el _ w0. reflexivity.
  - intros el el' Hel Hel'. by destruct (el =? 4)%nat, (el' =? 4)%nat.
  - intros el el' Hel Hel' Hne.
    apply elem_of_cons in Hel as [->|Hel]; apply elem_of_cons in Hel' as [->|Hel'];
      try apply list_elem_of_singleton in Hel; try apply list_elem_of_singleton in Hel';
      subst; simpl; congruence.
  - intros el Hel.
    apply elem_of_cons in Hel as [->|Hel]; [|apply list_elem_of_singleton in Hel as ->];
      vm_compute; repeat split; lia.
  - exists w'. split; [exact H1|]. split.
    + apply (H2 4). by left.
    + apply (H2 7). right. by left.
Defined.

(* --------------------------------------------------------------------- *)
(** ** Script transform: scripts of a type that is not accepted *)
(* --------------------------------------------------------------------- *)

(** C5, as the code has it.  For a script node whose declared type is not
    empty and is not one of the five recognised types: when it has no [src]
    attribute, or an empty one, the transform leaves it entirely as it is,
    with or without a sandbox (nothing in the page changes); when it has a
    non-empty [src] attribute its type is not looked at: with a sandbox the
    attribute is removed, the resolved URL is recorded and a fetch is started,
    and without a sandbox the attribute is set to the URL resolved against the
    base URL. *)
Theorem nonexecutable_type_script_transform
    (getEntireUrl : string → string → string) (script : NodeId) (baseURI : string)
    (w : World) :
  type (getNode w script) ≠ "" →
  ¬ In (type (getNode w script)) handleTypes →
  (truthyOpt (attr_src (getNode w script)) = false →
   ∀ opts, transpileScript getEntireUrl script baseURI opts w = (Normal tt, w))
  ∧ (∀ src,
       attr_src (getNode w script) = Some src → src ≠ "" →
       (∀ sandbox,
          let res := transpileScript getEntireUrl script baseURI
                       (mkTransformerOpts (Some sandbox)) w in
          res.1 = Normal tt
          ∧ attr_src (getNode res.2 script) = None
          ∧ dataset_src (getNode res.2 script) = Some (getEntireUrl src baseURI)
          ∧ pendingFetches res.2
            = pendingFetches w
              ++ [mkFetchTask (getEntireUrl src baseURI) script sandbox
                              (getEntireUrl src baseURI)])
       ∧ (let res := transpileScript getEntireUrl script baseURI
                       (mkTransformerOpts None) w in
          res.1 = Normal tt
          ∧ attr_src (getNode res.2 script) = Some (getEntireUrl src baseURI)
          ∧ pendingFetches res.2 = pendingFetches w
          ∧ textContent (getNode res.2 script) = textContent (getNode w script))).
Proof.
  intros Hne Hin. split.
  - intros Hsrc opts. by apply transpileScript_nonexecutable_inline.
  - intros src Hsrc Hsrcne. split.
    + intros sandbox res. subst res.
      rewrite (transpileScript_external getEntireUrl _ _ _ _ _ Hsrc Hsrcne).
      cbn [fst snd]. rewrite !getNode_setPendingFetches, !getNode_updNode_same. done.
    + intros res. subst res.
      rewrite (transpileScript_plain getEntireUrl _ _ _ _ Hsrc Hsrcne).
      cbn [fst snd]. rewrite !getNode_updNode_same. done.
Qed.

(** The JSON resource 9 and the JSON data island 10 of the example page. *)
Lemma nonexecutable_type_script_transform_witness :
  attr_src (getNode (transpileScript resolveExample 9 "https://host/app/"
                       (mkTransformerOpts (Some appSandbox)) page).2 9) = None
  ∧ transpileScript resolveExample 10 "https://host/app/"
      (mkTransformerOpts (Some appSandbox)) page
    = (Normal tt, page).
Proof.
  split.
  - pose proof (nonexecutable_type_script_transform resolveExample 9 "https://host/app/"
                  page) as H.
    destruct H as (_ & H2).
    + discriminate.
    + vm_compute. intuition discriminate.
    + destruct (H2 "./data.json") as (H3 & _); [reflexivity|discriminate|].
      apply (H3 appSandbox).
  - pose proof (nonexecutable_type_script_transform resolveExample 10 "https://host/app/"
                  page) as H.
    destruct H as (H1 & _).
    + discriminate.
    + vm_compute. intuition discriminate.
    + apply H1. reflexivity.
Defined.

(* --------------------------------------------------------------------- *)
(** ** Mutation interceptor: a reference that the platform refuses *)
(* --------------------------------------------------------------------- *)


(** A tag name that only the upper-casing brings to LINK is hijacked: the
    oracle is consulted, and its exception reaches the caller. *)
Example dotless_link_consults_oracle :
  isHijackingTag (tagName (getNode dotlessPage 6)) = true
  ∧ appendChildOrInsertBefore transpileAssetsExample
      (mkInsertOpts native_appendChild (λ _, throw (OtherError "oracle")) configOracle body)
      2 6 None dotlessPage
    = (Throw (OtherError "oracle"), dotlessPage).
Proof. split; vm_compute; reflexivity. Qed.
